(** * traefik-healthcheck: a shallow embedding of the daemon and its probes

    The program is one Go file, [traefik-healthcheck.go].  The repository
    carries two revisions of it: the current one (per-host minimum service
    counts, entrypoint probes, TTL rotation) and an earlier one (plain host
    names, no TTL, no entrypoints), modelled in [Module Legacy].

    Everything the program reaches outside itself (net/http, the consul
    client, encoding/json, math/rand, the clock, the file system) is an
    operation of the class [Outside]; the Go code is translated on top of
    it in a state monad that also records the calls made, in order.  The
    settings of the HTTP client (a timeout of ten seconds, certificates
    not verified) are part of how the world answers a [Get].  Log output
    and [response.Body.Close()] change neither a return value nor a call
    made, and are left out. *)

From Stdlib Require Import ZArith QArith Lia.
From Stdlib Require Import Floats.SpecFloat.
From stdpp Require Import gmap strings list.

Local Open Scope Z_scope.

(** ** Go values *)

(** A Go [error] value, by its message. *)
Definition error : Type := string.

(** A Go [(value, err)] result whose value is read only when [err == nil]. *)
Inductive result (A : Type) : Type :=
| Ok (a : A)
| Err (e : error).
Arguments Ok {A} a.
Arguments Err {A} e.

(** What a decoded [interface{}] can hold. *)
#[local] Set Warnings "-register-all".
Inductive JSONValue : Type :=
| JNull
| JBool (b : bool)
| JNumber (f : spec_float)
| JString (s : string)
| JArray (l : list JSONValue)
| JObject (l : list (string * JSONValue)).

(** [*http.Response], as far as the program reads it. *)
Record Response : Type := mkResponse {
  StatusCode : Z;
  Body : string
}.

Definition StatusOK : Z := 200.
Definition StatusInternalServerError : Z := 500.

(** ** The program's types *)

Record TraefikHost : Type := mkTraefikHost {
  Host : string;
  MinServices : Z
}.

Record Configuration : Type := mkConfiguration {
  ListenAddr : string;
  PollInterval : Z;
  TraefikHosts : list TraefikHost;
  ConsulHost : string;
  TraefikEntrypoints : list string;
  HealthyTTLSec : Z;
  HealthyTTLOffset : Z
}.

Record ConsulCatalogProvider : Type := mkConsulCatalog {
  Backends : gmap string JSONValue;
  Frontends : gmap string JSONValue
}.

Record TraefikProviders : Type := mkTraefikProviders {
  ConsulCatalog : ConsulCatalogProvider
}.

Record TraefikHealth : Type := mkTraefikHealth {
  Uptime : string;
  UptimeSec : spec_float;
  RequestCount : Z
}.

(** [TraefikProviders{}] and [TraefikHealth{}]: every field at its zero value
    (a nil map has length 0, like the empty one). *)
Definition zeroTraefikProviders : TraefikProviders :=
  mkTraefikProviders (mkConsulCatalog ∅ ∅).

Definition zeroTraefikHealth : TraefikHealth :=
  mkTraefikHealth "" (S754_zero false) 0.

(** [len(m)] of a Go map: the number of its keys. *)
Definition len_map (m : gmap string JSONValue) : Z := Z.of_nat (size m).

(** ** The calls the program makes, as recorded *)

Inductive Event : Type :=
| EvStat (path : string)
| EvReadConfig (path : string)
| EvNow (unix : Z)
| EvSeed (seed : Z)
| EvIntn (n : Z)
| EvNewClient (address : string)
| EvLeader (r : result string)
| EvGet (url : string) (r : result Response)
| EvSleep (nanoseconds : Z).

(** How a Go call ends: with a value, in a panic, or in [os.Exit]. *)
Inductive outcome (A : Type) : Type :=
| Val (a : A)
| Panic (msg : string)
| Exit (code : Z).
Arguments Val {A} a.
Arguments Panic {A} msg.
Arguments Exit {A} code.

(** ** The outside world *)

Class Outside : Type := {
  World : Type;
  (** the width of Go's [int] on the build target (64 on amd64, 32 on 386) *)
  intSize : Z;
  intSize_32_or_64 : intSize = 32 \/ intSize = 64;
  (** [int(f)] where the truncation of [f] is no [int]: the Go specification
      leaves the result to the implementation *)
  float64_out_of_range : spec_float -> Z;
  (** [Get] of an [http.Client] *)
  http_Get : string -> World -> result Response * World;
  (** [json.NewDecoder(body).Decode(&v)]: the struct after the call, and the error *)
  json_Decode_TraefikProviders :
    string -> TraefikProviders -> TraefikProviders * option error;
  json_Decode_TraefikHealth :
    string -> TraefikHealth -> TraefikHealth * option error;
  (** [api.NewClient], and [Leader] of the client's [Status] *)
  Client : Type;
  api_NewClient : string -> World -> result Client * World;
  Status_Leader : Client -> World -> result string * World;
  (** [time.Now().Unix()], [rand.Seed], and the draw of [rand.Intn(n)] for [0 < n] *)
  time_Now_Unix : World -> Z * World;
  rand_Seed : Z -> World -> World;
  rand_draw : Z -> World -> Z * World;
  rand_draw_range : forall n w, 0 < n -> 0 <= fst (rand_draw n w) < n;
  (** [os.Stat(path)]: its error; [os.Open] then [Decode(&config)]: the struct
      after the call, and the error *)
  os_Stat : string -> World -> option error * World;
  json_Decode_Configuration :
    string -> Configuration -> World -> (Configuration * option error) * World
}.

(** ** Go's [int] *)

Definition minInt `{Outside} : Z := - 2 ^ (intSize - 1).
Definition maxInt `{Outside} : Z := 2 ^ (intSize - 1) - 1.

(** Two's-complement wrap-around of an [int] result. *)
Definition wrapInt `{Outside} (z : Z) : Z :=
  (z - minInt) mod 2 ^ intSize + minInt.

Definition int_add `{Outside} (a b : Z) : Z := wrapInt (a + b).
Definition int_sub `{Outside} (a b : Z) : Z := wrapInt (a - b).

(** The value of a finite [float64] with its fraction discarded. *)
Definition float64_truncate (f : spec_float) : option Z :=
  match f with
  | S754_zero _ => Some 0
  | S754_finite s m e =>
      let a := if 0 <=? e then Z.pos m * 2 ^ e else Z.pos m / 2 ^ (- e) in
      Some (if s then - a else a)
  | S754_infinity _ | S754_nan => None
  end.

(** The conversion [int(f)] of a [float64]. *)
Definition int_of_float64 `{Outside} (f : spec_float) : Z :=
  match float64_truncate f with
  | Some z => if (minInt <=? z) && (z <=? maxInt) then z else float64_out_of_range f
  | None => float64_out_of_range f
  end.

(** The number a finite [float64] stands for: [m * 2 ^ e], signed. *)
Definition float64_value (f : spec_float) : option Q :=
  match f with
  | S754_zero _ => Some 0%Q
  | S754_finite s m e =>
      let a :=
        match e with
        | Z.neg k => Qmake (Z.pos m) (2 ^ k)%positive
        | _ => inject_Z (Z.pos m * 2 ^ e)
        end in
      Some (if s then Qopp a else a)
  | S754_infinity _ | S754_nan => None
  end.

(** ** The state monad of the program *)

(** The world and the program's one global, [var healthy bool]. *)
Record State `{Outside} : Type := mkState {
  world : World;
  healthy : bool
}.

Definition M `{Outside} (A : Type) : Type :=
  State -> outcome A * State * list Event.

Definition ret `{Outside} {A : Type} (a : A) : M A :=
  fun s => (Val a, s, []).

Definition bind `{Outside} {A B : Type} (m : M A) (k : A -> M B) : M B :=
  fun s =>
    match m s with
    | (Val a, s1, t1) =>
        match k a s1 with
        | (o, s2, t2) => (o, s2, t1 ++ t2)
        end
    | (Panic msg, s1, t1) => (Panic msg, s1, t1)
    | (Exit code, s1, t1) => (Exit code, s1, t1)
    end.

Notation "'do' x <- m ; k" := (bind m (fun x => k))
  (at level 10, x name, m at level 100, k at level 200).

Definition panic `{Outside} {A : Type} (msg : string) : M A :=
  fun s => (Panic msg, s, []).

(** [log.Fatal]: prints and calls [os.Exit(1)]. *)
Definition log_Fatal `{Outside} {A : Type} : M A :=
  fun s => (Exit 1, s, []).

(** An outside call: runs on the world, and is recorded. *)
Definition call `{Outside} {A : Type}
    (f : World -> A * World) (ev : A -> Event) : M A :=
  fun s =>
    match f (world s) with
    | (a, w) => (Val a, mkState _ w (healthy s), [ev a])
    end.

Definition Get `{Outside} (url : string) : M (result Response) :=
  call (http_Get url) (EvGet url).

Definition NewClient `{Outside} (address : string) : M (result Client) :=
  call (api_NewClient address) (fun _ => EvNewClient address).

Definition Leader `{Outside} (client : Client) : M (result string) :=
  call (Status_Leader client) EvLeader.

Definition Now_Unix `{Outside} : M Z :=
  call time_Now_Unix EvNow.

Definition Seed `{Outside} (seed : Z) : M unit :=
  call (fun w => (tt, rand_Seed seed w)) (fun _ => EvSeed seed).

(** [rand.Intn(n)]: "It panics if n <= 0." *)
Definition Intn `{Outside} (n : Z) : M Z :=
  if n <=? 0 then panic "invalid argument to Intn"
  else call (rand_draw n) (fun _ => EvIntn n).

Definition Stat `{Outside} (path : string) : M (option error) :=
  call (os_Stat path) (fun _ => EvStat path).

Definition ReadConfig `{Outside} (path : string) (config : Configuration)
    : M (Configuration * option error) :=
  call (json_Decode_Configuration path config) (fun _ => EvReadConfig path).

Definition Sleep `{Outside} (d : Z) : M unit :=
  call (fun w => (tt, w)) (fun _ => EvSleep d).

Definition get_healthy `{Outside} : M bool :=
  fun s => (Val (healthy s), s, []).

Definition set_healthy `{Outside} (b : bool) : M unit :=
  fun s => (Val tt, mkState _ (world s) b, []).

(** ** Control flow of a loop body: go on, or [return b] from the function *)

Inductive Flow : Type :=
| Next
| Return (b : bool).

(** [for _, x := range xs { body }] *)
Fixpoint forRange `{Outside} {A : Type} (xs : list A) (body : A -> M Flow) : M Flow :=
  match xs with
  | [] => ret Next
  | x :: rest =>
      do f <- body x;
      match f with
      | Next => forRange rest body
      | Return b => ret (Return b)
      end
  end.

(** [a && b] *)
Definition andThen `{Outside} (a b : M bool) : M bool :=
  do x <- a; if x then b else ret false.

(** [do x <- f; match x with Return b => return b | Next => rest]: the code
    after a loop runs when the loop did not return. *)
Definition orElse `{Outside} (f : M Flow) (rest : M bool) : M bool :=
  do x <- f;
  match x with
  | Return b => ret b
  | Next => rest
  end.

(** [time.Duration] is an [int64]. *)
Definition wrapInt64 (z : Z) : Z := (z + 2 ^ 63) mod 2 ^ 64 - 2 ^ 63.
Definition time_Second : Z := 1000000000.

(** ** The program *)

(** [computeTtl] *)
Definition computeTtl `{Outside} (ttl offset : Z) : M Z :=
  do now <- Now_Unix;
  do _ <- Seed now;
  do r <- Intn (int_sub offset 0);
  ret (int_add r ttl).

Definition defaultHosts : list TraefikHost :=
  [mkTraefikHost "127.0.0.1:8080" 0].

Definition defaultConfig : Configuration :=
  mkConfiguration "0.0.0.0:10700" 10 defaultHosts "127.0.0.1:8500" [] 0 43200.

Definition withHealthyTTLSec (config : Configuration) (ttl : Z) : Configuration :=
  mkConfiguration (ListenAddr config) (PollInterval config) (TraefikHosts config)
    (ConsulHost config) (TraefikEntrypoints config) ttl (HealthyTTLOffset config).

(** [newConfig] *)
Definition newConfig `{Outside} (path : string) : M Configuration :=
  do st <- Stat path;
  do config <-
    match st with
    | None =>
        do r <- ReadConfig path defaultConfig;
        match snd r with
        | Some _ => log_Fatal
        | None => ret (fst r)
        end
    | Some _ => ret defaultConfig
    end;
  if HealthyTTLSec config >? 0 then
    do ttl <- computeTtl (HealthyTTLSec config) (HealthyTTLOffset config);
    ret (withHealthyTTLSec config ttl)
  else ret config.

(** [consulIsHealthy] *)
Definition consulIsHealthy `{Outside} (consulAddress : string) : M bool :=
  do c <- NewClient consulAddress;
  match c with
  | Err _ => ret false
  | Ok client =>
      do l <- Leader client;
      match l with
      | Err _ => ret false
      | Ok leader =>
          if negb (String.eqb leader "") then ret true else ret false
      end
  end.

(** [traefikIsHealthy], first loop body: the providers listing of one host. *)
Definition providersBody `{Outside} (host : TraefikHost) : M Flow :=
  do r <- Get ("http://" +:+ Host host +:+ "/api/providers");
  match r with
  | Err _ => ret (Return false)
  | Ok response =>
      if negb (StatusCode response =? 200) then ret (Return false)
      else
        match json_Decode_TraefikProviders (Body response) zeroTraefikProviders with
        | (_, Some _) => ret (Return false)
        | (providers, None) =>
            if len_map (Backends (ConsulCatalog providers)) <? MinServices host
            then ret (Return false)
            else if len_map (Frontends (ConsulCatalog providers)) <? MinServices host
            then ret (Return false)
            else ret Next
        end
  end.

(** [traefikIsHealthy], second loop body: the uptime of one host.  The error
    of [Decode] is assigned and never read. *)
Definition healthBody `{Outside} (ttl : Z) (host : TraefikHost) : M Flow :=
  do r <- Get ("http://" +:+ Host host +:+ "/health");
  match r with
  | Err _ => ret (Return false)
  | Ok response =>
      if negb (StatusCode response =? 200) then ret (Return false)
      else
        match json_Decode_TraefikHealth (Body response) zeroTraefikHealth with
        | (health, _) =>
            if int_of_float64 (UptimeSec health) >? ttl then ret (Return false)
            else ret Next
        end
  end.

(** [traefikIsHealthy], third loop body: one entrypoint. *)
Definition entrypointBody `{Outside} (host : string) : M Flow :=
  do r <- Get host;
  match r with
  | Err _ => ret (Return false)
  | Ok response =>
      if StatusCode response >=? 500 then ret (Return false) else ret Next
  end.

(** [traefikIsHealthy] *)
Definition traefikIsHealthy `{Outside}
    (traefikHosts : list TraefikHost) (traefikEntrypoints : list string) (ttl : Z)
    : M bool :=
  orElse (forRange traefikHosts providersBody)
    (orElse (if negb (ttl =? 0) then forRange traefikHosts (healthBody ttl) else ret Next)
       (orElse (forRange traefikEntrypoints entrypointBody)
          (ret true))).

(** [isLBHealthy] *)
Definition isLBHealthy `{Outside} (config : Configuration) : M bool :=
  andThen (consulIsHealthy (ConsulHost config))
    (traefikIsHealthy (TraefikHosts config) (TraefikEntrypoints config)
       (HealthyTTLSec config)).

(** One round of [pollHealth]: everything before the call to itself. *)
Definition pollOnce `{Outside} (config : Configuration) : M unit :=
  do b <- isLBHealthy config;
  do _ <- set_healthy b;
  Sleep (wrapInt64 (time_Second * wrapInt64 (PollInterval config))).

(** [http.ResponseWriter]: the status written, if any, and the body written. *)
Record ResponseWriter : Type := mkResponseWriter {
  wroteHeader : option Z;
  written : string
}.

Definition newResponseWriter : ResponseWriter := mkResponseWriter None "".

(** [w.WriteHeader(code)]: the first call sets the status. *)
Definition WriteHeader (code : Z) (w : ResponseWriter) : ResponseWriter :=
  match wroteHeader w with
  | Some _ => w
  | None => mkResponseWriter (Some code) (written w)
  end.

(** The handler [main] registers for ["/"]. *)
Definition handler `{Outside} (w : ResponseWriter) : M ResponseWriter :=
  do h <- get_healthy;
  if negb h then ret (WriteHeader StatusInternalServerError w)
  else ret (WriteHeader StatusOK w).

(** What net/http sends once the handler returns: the status written (200 if
    none was) and the body written. *)
Definition finish (w : ResponseWriter) : Response :=
  mkResponse (default StatusOK (wroteHeader w)) (written w).

Definition serve `{Outside} : M Response :=
  do w <- handler newResponseWriter; ret (finish w).

(** ** The process

    [main] resolves the configuration, starts [pollHealth] as a goroutine and
    serves requests.  The two share [healthy] only: the handler reads it and
    touches nothing else, a round of [pollHealth] writes it once, after its
    probes.  A run of the process is therefore an interleaving of whole
    rounds and served requests.  [pollHealth] ends in a call to itself, which
    Go does not turn into a jump: the rounds go on only for as long as the
    stack of its goroutine lasts, and the runs below are the runs of the
    process up to then. *)

Inductive Action : Type :=
| Poll
| Request (response : Response).

Inductive step `{Outside} (config : Configuration)
    : State -> Action -> list Event -> State -> Prop :=
| step_poll s s' t :
    pollOnce config s = (Val tt, s', t) ->
    step config s Poll t s'
| step_request s s' t response :
    serve s = (Val response, s', t) ->
    step config s (Request response) t s'.

Inductive steps `{Outside} (config : Configuration)
    : State -> list Action -> list Event -> State -> Prop :=
| steps_nil s : steps config s [] [] s
| steps_cons s a t s1 acts ts s2 :
    step config s a t s1 ->
    steps config s1 acts ts s2 ->
    steps config s (a :: acts) (t ++ ts) s2.

(** The state [main] starts in: [healthy] holds the zero value of [bool]. *)
Definition initial `{Outside} (w : World) : State := mkState _ w false.

(** A run of [main]: the configuration is resolved, then the process steps. *)
Definition main_run `{Outside} (path : string) (w : World)
    (acts : list Action) (events : list Event) (s : State) : Prop :=
  exists config s0 t0 ts,
    newConfig path (initial w) = (Val config, s0, t0) /\
    steps config s0 acts ts s /\
    events = t0 ++ ts.

(** ** The earlier revision of the program

    Hosts are plain strings, a listing needs at least one backend and one
    frontend, and there is neither TTL nor entrypoint.  [consulIsHealthy] is
    the same text in both revisions. *)

Module Legacy.

Record Configuration : Type := mkConfiguration {
  ListenAddr : string;
  PollInterval : Z;
  TraefikHosts : list string;
  ConsulHost : string
}.

Definition providersBody `{Outside} (host : string) : M Flow :=
  do r <- Get ("http://" +:+ host +:+ "/api/providers");
  match r with
  | Err _ => ret (Return false)
  | Ok response =>
      if negb (StatusCode response =? 200) then ret (Return false)
      else
        match json_Decode_TraefikProviders (Body response) zeroTraefikProviders with
        | (_, Some _) => ret (Return false)
        | (providers, None) =>
            if len_map (Backends (ConsulCatalog providers)) =? 0
            then ret (Return false)
            else if len_map (Frontends (ConsulCatalog providers)) =? 0
            then ret (Return false)
            else ret Next
        end
  end.

Definition traefikIsHealthy `{Outside} (traefikAddresses : list string) : M bool :=
  orElse (forRange traefikAddresses providersBody) (ret true).

Definition isLBHealthy `{Outside} (config : Configuration) : M bool :=
  andThen (consulIsHealthy (ConsulHost config))
    (traefikIsHealthy (TraefikHosts config)).

Definition providersURL (host : string) : string :=
  "http://" +:+ host +:+ "/api/providers".

(** A listing that is no good in this revision: no response, a status other
    than 200, a payload that does not decode, or no backend or no frontend. *)
Definition listing_fails `{Outside} (host : string) (r : result Response) : Prop :=
  match r with
  | Err _ => True
  | Ok response =>
      StatusCode response <> 200 \/
      (exists providers e,
          json_Decode_TraefikProviders (Body response) zeroTraefikProviders
          = (providers, Some e)) \/
      (exists providers,
          json_Decode_TraefikProviders (Body response) zeroTraefikProviders
          = (providers, None) /\
          (dom (Backends (ConsulCatalog providers)) = ∅ \/
           dom (Frontends (ConsulCatalog providers)) = ∅))
  end.

End Legacy.

(** ** What the probes are specified against *)

Definition providersURL (host : TraefikHost) : string :=
  "http://" +:+ Host host +:+ "/api/providers".

Definition healthURL (host : TraefikHost) : string :=
  "http://" +:+ Host host +:+ "/health".

Definition isGet (ev : Event) : bool :=
  match ev with
  | EvGet _ _ => true
  | _ => false
  end.

Definition isIntn (ev : Event) : bool :=
  match ev with
  | EvIntn _ => true
  | _ => false
  end.

(** A providers listing that is no good for [host]: no response, a status
    other than 200, a payload that does not decode, or fewer backend names or
    fewer frontend names than the host's minimum. *)
Definition listing_fails `{Outside} (host : TraefikHost) (r : result Response) : Prop :=
  match r with
  | Err _ => True
  | Ok response =>
      StatusCode response <> 200 \/
      (exists providers e,
          json_Decode_TraefikProviders (Body response) zeroTraefikProviders
          = (providers, Some e)) \/
      (exists providers,
          json_Decode_TraefikProviders (Body response) zeroTraefikProviders
          = (providers, None) /\
          (Z.of_nat (size (dom (Backends (ConsulCatalog providers)))) < MinServices host \/
           Z.of_nat (size (dom (Frontends (ConsulCatalog providers)))) < MinServices host))
  end.

(** The [health] struct the uptime step compares: what [Decode] left of
    [TraefikHealth{}]. *)
Definition decoded_health `{Outside} (response : Response) : TraefikHealth :=
  fst (json_Decode_TraefikHealth (Body response) zeroTraefikHealth).

(** An uptime answer that ends the probe: no response, a status other than
    200, or an uptime whose whole seconds are more than [ttl]. *)
Definition uptime_fails `{Outside} (ttl : Z) (host : TraefikHost) (r : result Response) : Prop :=
  match r with
  | Err _ => True
  | Ok response =>
      StatusCode response <> 200 \/
      ttl < int_of_float64 (UptimeSec (decoded_health response))
  end.

(** An entrypoint answer that ends the probe: no response, or a status of 500
    and above. *)
Definition entrypoint_fails (url : string) (r : result Response) : Prop :=
  match r with
  | Err _ => True
  | Ok response => 500 <= StatusCode response
  end.

(** The calls of one loop over [xs], and how the loop ends: every element is
    fetched in turn until one fails, which is the last call made. *)
Inductive probed {A : Type} (url : A -> string) (fails : A -> result Response -> Prop)
    : list A -> list Event -> Flow -> Prop :=
| probed_nil : probed url fails [] [] Next
| probed_fail x xs r :
    fails x r ->
    probed url fails (x :: xs) [EvGet (url x) r] (Return false)
| probed_pass x xs r t f :
    ~ fails x r ->
    probed url fails xs t f ->
    probed url fails (x :: xs) (EvGet (url x) r :: t) f.

(** The uptime phase when it runs to its end: skipped for [ttl = 0]. *)
Definition uptime_phase `{Outside} (ttl : Z) (hosts : list TraefikHost) (t : list Event) : Prop :=
  (ttl = 0 /\ t = []) \/
  (ttl <> 0 /\ probed healthURL (uptime_fails ttl) hosts t Next).

(** The calls of one proxy probe and its verdict. *)
Inductive probe_run `{Outside} (hosts : list TraefikHost) (eps : list string) (ttl : Z)
    : list Event -> bool -> Prop :=
| run_listing_fails t1 :
    probed providersURL listing_fails hosts t1 (Return false) ->
    probe_run hosts eps ttl t1 false
| run_uptime_fails t1 t2 :
    probed providersURL listing_fails hosts t1 Next ->
    ttl <> 0 ->
    probed healthURL (uptime_fails ttl) hosts t2 (Return false) ->
    probe_run hosts eps ttl (t1 ++ t2) false
| run_entrypoint_fails t1 t2 t3 :
    probed providersURL listing_fails hosts t1 Next ->
    uptime_phase ttl hosts t2 ->
    probed id entrypoint_fails eps t3 (Return false) ->
    probe_run hosts eps ttl (t1 ++ t2 ++ t3) false
| run_healthy t1 t2 t3 :
    probed providersURL listing_fails hosts t1 Next ->
    uptime_phase ttl hosts t2 ->
    probed id entrypoint_fails eps t3 Next ->
    probe_run hosts eps ttl (t1 ++ t2 ++ t3) true.

(** Where the entrypoint calls start in the trace of a probe. *)
Definition entrypointsStart (hosts : list TraefikHost) (ttl : Z) : nat :=
  if ttl =? 0 then length hosts else (length hosts + length hosts)%nat.

(** A loop body that makes one [Get], of [url x], and goes on unless the
    answer [fails]; it leaves [healthy] alone. *)
Definition probes `{Outside} {A : Type} (body : A -> M Flow)
    (url : A -> string) (fails : A -> result Response -> Prop) : Prop :=
  forall x s, exists r s',
    healthy s' = healthy s /\
    ((fails x r /\ body x s = (Val (Return false), s', [EvGet (url x) r])) \/
     (~ fails x r /\ body x s = (Val Next, s', [EvGet (url x) r]))).

(** A computation that leaves the global [healthy] as it found it. *)
Definition keeps_healthy `{Outside} {A : Type} (m : M A) : Prop :=
  forall s o s' t, m s = (o, s', t) -> healthy s' = healthy s.

(** A computation all of whose recorded calls satisfy [P]. *)
Definition emits `{Outside} {A : Type} (P : Event -> Prop) (m : M A) : Prop :=
  forall s o s' t, m s = (o, s', t) -> Forall P t.

(** What the file at [path] sets the configuration to, before the TTL is
    drawn: the defaults when [os.Stat] fails. *)
Definition loaded `{Outside} (path : string) (w : World) (base : Configuration) : Prop :=
  (exists e w1, os_Stat path w = (Some e, w1) /\ base = defaultConfig) \/
  (exists w1 w2,
      os_Stat path w = (None, w1) /\
      json_Decode_Configuration path defaultConfig w1 = ((base, None), w2)).

(** The arguments of the [rand.Intn] calls of a trace, in order. *)
Fixpoint draws (t : list Event) : list Z :=
  match t with
  | [] => []
  | EvIntn n :: t' => n :: draws t'
  | _ :: t' => draws t'
  end.

(** The calls a probe may make: to consul and over HTTP. *)
Definition isProbe (ev : Event) : bool :=
  match ev with
  | EvNewClient _ | EvLeader _ | EvGet _ _ => true
  | _ => false
  end.

(** The answer a request gets while [healthy] holds [b]. *)
Definition answer (b : bool) : Response :=
  mkResponse (if b then StatusOK else StatusInternalServerError) "".

(** ** A concrete outside world, to run the program in

    One consul server with a leader and one without, a few proxies and
    entrypoints, and three configuration files.  The decoders know the
    payloads this world serves. *)

Module Demo.

Definition quote : string := String (Ascii.ascii_of_nat 34) "".
Definition key (k : string) : string := quote +:+ k +:+ quote.

(** Two backends and two frontends. *)
Definition listing2 : string :=
  "{" +:+ key "consul_catalog" +:+ ":{" +:+ key "backends" +:+ ":{"
  +:+ key "b1" +:+ ":{}," +:+ key "b2" +:+ ":{}}," +:+ key "frontends" +:+ ":{"
  +:+ key "f1" +:+ ":{}," +:+ key "f2" +:+ ":{}}}}".

(** Two backends and one frontend. *)
Definition listing21 : string :=
  "{" +:+ key "consul_catalog" +:+ ":{" +:+ key "backends" +:+ ":{"
  +:+ key "b1" +:+ ":{}," +:+ key "b2" +:+ ":{}}," +:+ key "frontends" +:+ ":{"
  +:+ key "f1" +:+ ":{}}}}".

(** No backend and no frontend. *)
Definition listing0 : string :=
  "{" +:+ key "consul_catalog" +:+ ":{" +:+ key "backends" +:+ ":{},"
  +:+ key "frontends" +:+ ":{}}}".

Definition uptime (seconds : string) : string :=
  "{" +:+ key "uptime_sec" +:+ ":" +:+ seconds +:+ "}".

Definition garbled : string := "<html>Bad Gateway</html>".

(** The binary64 numbers 100, 100.5 and 101. *)
Definition f100 : spec_float := S754_finite false 7036874417766400 (-46).
Definition f100_5 : spec_float := S754_finite false 7072058789855232 (-46).
Definition f101 : spec_float := S754_finite false 7107243161944064 (-46).

Definition decodeProviders (body : string) (v : TraefikProviders)
    : TraefikProviders * option error :=
  if String.eqb body listing2 then
    (mkTraefikProviders
       (mkConsulCatalog {[ "b1" := JObject []; "b2" := JObject [] ]}
                        {[ "f1" := JObject []; "f2" := JObject [] ]}), None)
  else if String.eqb body listing21 then
    (mkTraefikProviders
       (mkConsulCatalog {[ "b1" := JObject []; "b2" := JObject [] ]}
                        {[ "f1" := JObject [] ]}), None)
  else if String.eqb body listing0 then
    (mkTraefikProviders (mkConsulCatalog ∅ ∅), None)
  else (v, Some "invalid character '<' looking for beginning of value").

Definition decodeHealth (body : string) (v : TraefikHealth)
    : TraefikHealth * option error :=
  if String.eqb body (uptime "100") then
    (mkTraefikHealth (Uptime v) f100 (RequestCount v), None)
  else if String.eqb body (uptime "100.5") then
    (mkTraefikHealth (Uptime v) f100_5 (RequestCount v), None)
  else if String.eqb body (uptime "101") then
    (mkTraefikHealth (Uptime v) f101 (RequestCount v), None)
  else (v, Some "invalid character '<' looking for beginning of value").

Definition refused {A : Type} : result A := Err "connection refused".

Definition get (url : string) : result Response :=
  if String.eqb url "http://good:8080/api/providers" then Ok (mkResponse 200 listing2)
  else if String.eqb url "http://exact:8080/api/providers" then Ok (mkResponse 200 listing2)
  else if String.eqb url "http://late:8080/api/providers" then Ok (mkResponse 200 listing2)
  else if String.eqb url "http://old:8080/api/providers" then Ok (mkResponse 200 listing2)
  else if String.eqb url "http://mute:8080/api/providers" then Ok (mkResponse 200 listing2)
  else if String.eqb url "http://thin:8080/api/providers" then Ok (mkResponse 200 listing21)
  else if String.eqb url "http://bare:8080/api/providers" then Ok (mkResponse 200 listing0)
  else if String.eqb url "http://good:8080/health" then Ok (mkResponse 200 (uptime "100"))
  else if String.eqb url "http://exact:8080/health" then Ok (mkResponse 200 (uptime "100"))
  else if String.eqb url "http://late:8080/health" then Ok (mkResponse 200 (uptime "100.5"))
  else if String.eqb url "http://old:8080/health" then Ok (mkResponse 200 (uptime "101"))
  else if String.eqb url "http://mute:8080/health" then Ok (mkResponse 200 garbled)
  else if String.eqb url "http://good:80/" then Ok (mkResponse 200 "ok")
  else if String.eqb url "http://good:80/missing" then Ok (mkResponse 404 "404 page not found")
  else if String.eqb url "http://good:80/down" then Ok (mkResponse 503 "Service Unavailable")
  else refused.

Definition leader (client : string) : result string :=
  if String.eqb client "consul:8500" then Ok "10.0.0.1:8300"
  else if String.eqb client "alone:8500" then Ok ""
  else refused.

Definition readConfig (path : string) (config : Configuration)
    : Configuration * option error :=
  if String.eqb path "jitter.json" then
    (mkConfiguration (ListenAddr config) (PollInterval config)
       [mkTraefikHost "good:8080" 1] "consul:8500" [] 100 50, None)
  else if String.eqb path "nojitter.json" then
    (mkConfiguration (ListenAddr config) (PollInterval config)
       [mkTraefikHost "good:8080" 1] "consul:8500" [] 100 0, None)
  else (config, Some "unexpected end of JSON input").

Definition stat (path : string) : option error :=
  if String.eqb path "jitter.json" then None
  else if String.eqb path "nojitter.json" then None
  else if String.eqb path "broken.json" then None
  else Some "no such file or directory".

Lemma draw_range (n w : Z) : 0 < n -> 0 <= fst (w mod n, w) < n.
Proof. intros Hn. simpl. apply Z.mod_pos_bound. exact Hn. Qed.

(** The world's state is the state of the random generator. *)
Definition world : Outside := {|
  World := Z;
  intSize := 64;
  intSize_32_or_64 := or_intror eq_refl;
  float64_out_of_range := fun _ => - 2 ^ 63;
  http_Get := fun url w => (get url, w);
  json_Decode_TraefikProviders := decodeProviders;
  json_Decode_TraefikHealth := decodeHealth;
  Client := string;
  api_NewClient := fun address w => (Ok address, w);
  Status_Leader := fun client w => (leader client, w);
  time_Now_Unix := fun w => (1700000000, w);
  rand_Seed := fun seed _ => seed;
  rand_draw := fun n w => (w mod n, w);
  rand_draw_range := draw_range;
  os_Stat := fun path w => (stat path, w);
  json_Decode_Configuration := fun path config w => (readConfig path config, w)
|}.

Definition start : @State world := @initial world 0.

Definition good : TraefikHost := mkTraefikHost "good:8080" 1.
Definition exact : TraefikHost := mkTraefikHost "exact:8080" 2.
Definition late : TraefikHost := mkTraefikHost "late:8080" 2.
Definition old : TraefikHost := mkTraefikHost "old:8080" 2.
Definition mute : TraefikHost := mkTraefikHost "mute:8080" 2.
Definition thin : TraefikHost := mkTraefikHost "thin:8080" 2.
Definition bare : TraefikHost := mkTraefikHost "bare:8080" 1.

Definition listing2_of (host : TraefikHost) : Event :=
  EvGet (providersURL host) (Ok (mkResponse 200 listing2)).

Definition uptime_of (host : TraefikHost) (seconds : string) : Event :=
  EvGet (healthURL host) (Ok (mkResponse 200 (uptime seconds))).

Definition alone : Configuration :=
  mkConfiguration "0.0.0.0:10700" 10 [good] "alone:8500" ["http://good:80/"] 0 43200.

Definition bare_config : Configuration :=
  mkConfiguration "0.0.0.0:10700" 10 [] "consul:8500" [] 0 43200.

(** The configuration that [jitter.json] resolves to, and the calls of a run
    on it with one round of polling. *)
Definition jitter_config : Configuration :=
  mkConfiguration "0.0.0.0:10700" 10 [good] "consul:8500" [] 100 50.

Definition jitter_events : list Event :=
  [EvStat "jitter.json"; EvReadConfig "jitter.json";
   EvNow 1700000000; EvSeed 1700000000; EvIntn 50;
   EvNewClient "consul:8500"; EvLeader (Ok "10.0.0.1:8300");
   listing2_of good; uptime_of good "100";
   EvSleep 10000000000].

End Demo.

(** The same world with other configuration files: one without TTL, one
    with a negative TTL. *)

Module Files.

Definition readConfig (path : string) (config : Configuration)
    : Configuration * option error :=
  if String.eqb path "static.json" then
    (mkConfiguration "127.0.0.1:9000" 5 [Demo.good] "consul:8500"
       ["http://good:80/"] 0 (HealthyTTLOffset config), None)
  else if String.eqb path "negative.json" then
    (mkConfiguration (ListenAddr config) (PollInterval config)
       [Demo.exact] "consul:8500" [] (-5) 10, None)
  else (config, Some "unexpected end of JSON input").

Definition stat (path : string) : option error :=
  if String.eqb path "static.json" then None
  else if String.eqb path "negative.json" then None
  else if String.eqb path "broken.json" then None
  else Some "no such file or directory".

Definition world : Outside := {|
  World := Z;
  intSize := 64;
  intSize_32_or_64 := or_intror eq_refl;
  float64_out_of_range := fun _ => - 2 ^ 63;
  http_Get := fun url w => (Demo.get url, w);
  json_Decode_TraefikProviders := Demo.decodeProviders;
  json_Decode_TraefikHealth := Demo.decodeHealth;
  Client := string;
  api_NewClient := fun address w => (Ok address, w);
  Status_Leader := fun client w => (Demo.leader client, w);
  time_Now_Unix := fun w => (1700000000, w);
  rand_Seed := fun seed _ => seed;
  rand_draw := fun n w => (w mod n, w);
  rand_draw_range := Demo.draw_range;
  os_Stat := fun path w => (stat path, w);
  json_Decode_Configuration := fun path config w => (readConfig path config, w)
|}.

Definition start : @State world := @initial world 0.

Definition static_config : Configuration :=
  mkConfiguration "127.0.0.1:9000" 5 [Demo.good] "consul:8500"
    ["http://good:80/"] 0 43200.

End Files.

(** The same world with one more proxy, whose uptime payload gives the
    request count as a string.  The decoder does as encoding/json does with a
    value of the wrong type: it skips that field, stores the others, and
    returns the error. *)

Module Partial.

Definition mistyped : string :=
  "{" +:+ Demo.key "uptime_sec" +:+ ":500," +:+ Demo.key "total_count" +:+ ":"
  +:+ Demo.key "many" +:+ "}".

(** The binary64 number 500. *)
Definition f500 : spec_float := S754_finite false 8796093022208000 (-44).

Definition type_error : error :=
  "json: cannot unmarshal string into Go struct field TraefikHealth.total_count of type int".

Definition decodeHealth (body : string) (v : TraefikHealth)
    : TraefikHealth * option error :=
  if String.eqb body mistyped then
    (mkTraefikHealth (Uptime v) f500 (RequestCount v), Some type_error)
  else Demo.decodeHealth body v.

Definition get (url : string) : result Response :=
  if String.eqb url "http://odd:8080/api/providers" then Ok (mkResponse 200 Demo.listing2)
  else if String.eqb url "http://odd:8080/health" then Ok (mkResponse 200 mistyped)
  else Demo.get url.

Definition world : Outside := {|
  World := Z;
  intSize := 64;
  intSize_32_or_64 := or_intror eq_refl;
  float64_out_of_range := fun _ => - 2 ^ 63;
  http_Get := fun url w => (get url, w);
  json_Decode_TraefikProviders := Demo.decodeProviders;
  json_Decode_TraefikHealth := decodeHealth;
  Client := string;
  api_NewClient := fun address w => (Ok address, w);
  Status_Leader := fun client w => (Demo.leader client, w);
  time_Now_Unix := fun w => (1700000000, w);
  rand_Seed := fun seed _ => seed;
  rand_draw := fun n w => (w mod n, w);
  rand_draw_range := Demo.draw_range;
  os_Stat := fun path w => (Demo.stat path, w);
  json_Decode_Configuration := fun path config w => (Demo.readConfig path config, w)
|}.

Definition start : @State world := @initial world 0.

Definition odd : TraefikHost := mkTraefikHost "odd:8080" 1.

End Partial.

Example demo_floats_are_binary64 :
  forallb (valid_binary 53 1024) [Demo.f100; Demo.f100_5; Demo.f101] = true /\
  float64_truncate Demo.f100_5 = Some 100 /\
  float64_truncate Demo.f101 = Some 101.
Proof. vm_compute. auto. Qed.

Example demo_probe_healthy :
  @traefikIsHealthy Demo.world [Demo.good; Demo.exact] ["http://good:80/"] 100 Demo.start
  = (Val true, Demo.start,
     [EvGet "http://good:8080/api/providers" (Ok (mkResponse 200 Demo.listing2));
      EvGet "http://exact:8080/api/providers" (Ok (mkResponse 200 Demo.listing2));
      EvGet "http://good:8080/health" (Ok (mkResponse 200 (Demo.uptime "100")));
      EvGet "http://exact:8080/health" (Ok (mkResponse 200 (Demo.uptime "100")));
      EvGet "http://good:80/" (Ok (mkResponse 200 "ok"))]).
Proof. vm_compute. reflexivity. Qed.

(** * Properties *)

Section Proofs.

Context `{Outside}.

(** ** The monad *)

Lemma bind_Val {A B : Type} (m : M A) (k : A -> M B) s a s1 t1 :
  m s = (Val a, s1, t1) ->
  bind m k s = (let '(o, s2, t2) := k a s1 in (o, s2, t1 ++ t2)).
Proof. intros Hm. unfold bind. rewrite Hm. reflexivity. Qed.

Lemma call_run {A : Type} (f : World -> A * World) (ev : A -> Event) s :
  call f ev s
  = (Val (fst (f (world s))), mkState _ (snd (f (world s))) (healthy s),
     [ev (fst (f (world s)))]).
Proof. unfold call. destruct (f (world s)); reflexivity. Qed.

Lemma Get_run url s :
  Get url s
  = (Val (fst (http_Get url (world s))),
     mkState _ (snd (http_Get url (world s))) (healthy s),
     [EvGet url (fst (http_Get url (world s)))]).
Proof. apply call_run. Qed.

(** ** The three loop bodies of [traefikIsHealthy] *)

Ltac run_get url s :=
  exists (fst (http_Get url (world s))),
         (mkState _ (snd (http_Get url (world s))) (healthy s));
  split; [ reflexivity | rewrite (bind_Val _ _ _ _ _ _ (Get_run url s)) ].

Lemma providersBody_probes : probes providersBody providersURL listing_fails.
Proof.
  intros host s. unfold providersBody.
  run_get (providersURL host) s.
  fold (providersURL host).
  destruct (fst (http_Get (providersURL host) (world s))) as [response | e]; simpl.
  2: { left. split; [ exact I | reflexivity ]. }
  destruct (Z.eqb_spec (StatusCode response) 200) as [Hst | Hst]; simpl.
  2: { left. split; [ left; exact Hst | reflexivity ]. }
  destruct (json_Decode_TraefikProviders (Body response) zeroTraefikProviders)
    as [providers [e | ]] eqn:Hdec.
  { left. split; [ right; left; eauto | reflexivity ]. }
  unfold len_map. rewrite <- !size_dom.
  destruct (Z.ltb_spec (Z.of_nat (size (dom (Backends (ConsulCatalog providers)))))
              (MinServices host)) as [Hb | Hb].
  { left. split; [ right; right; eauto | reflexivity ]. }
  destruct (Z.ltb_spec (Z.of_nat (size (dom (Frontends (ConsulCatalog providers)))))
              (MinServices host)) as [Hf | Hf].
  { left. split; [ right; right; eauto | reflexivity ]. }
  right. split; [ | reflexivity ].
  intros [Hst' | [(p & e & He) | (p & Hp & Hlt)]].
  - contradiction.
  - congruence.
  - assert (p = providers) by congruence. subst p. lia.
Qed.

Lemma healthBody_probes ttl : probes (healthBody ttl) healthURL (uptime_fails ttl).
Proof.
  intros host s. unfold healthBody.
  run_get (healthURL host) s.
  fold (healthURL host).
  destruct (fst (http_Get (healthURL host) (world s))) as [response | e]; simpl.
  2: { left. split; [ exact I | reflexivity ]. }
  destruct (Z.eqb_spec (StatusCode response) 200) as [Hst | Hst]; simpl.
  2: { left. split; [ left; exact Hst | reflexivity ]. }
  unfold decoded_health.
  destruct (json_Decode_TraefikHealth (Body response) zeroTraefikHealth)
    as [health err]; simpl.
  rewrite Z.gtb_ltb.
  destruct (Z.ltb_spec ttl (int_of_float64 (UptimeSec health))) as [Hlt | Hge].
  - left. split; [ right; exact Hlt | reflexivity ].
  - right. split; [ | reflexivity ]. intros [Hst' | Hlt]; [ contradiction | lia ].
Qed.

Lemma entrypointBody_probes : probes entrypointBody id entrypoint_fails.
Proof.
  intros url s. unfold entrypointBody.
  run_get (url) s.
  destruct (fst (http_Get url (world s))) as [response | e]; simpl.
  2: { left. split; [ exact I | reflexivity ]. }
  rewrite Z.geb_leb.
  destruct (Z.leb_spec 500 (StatusCode response)) as [Hge | Hlt].
  - left. split; [ exact Hge | reflexivity ].
  - right. split; [ lia | reflexivity ].
Qed.

(** ** A loop of probes *)

Lemma forRange_probed {A : Type} (body : A -> M Flow) url fails :
  probes body url fails ->
  forall xs s, exists f s' t,
    forRange xs body s = (Val f, s', t) /\
    healthy s' = healthy s /\
    probed url fails xs t f.
Proof.
  intros Hbody xs. induction xs as [ | x xs IH]; intros s.
  - exists Next, s, []. repeat split. constructor.
  - destruct (Hbody x s) as (r & s1 & Hh & [[Hf Hrun] | [Hok Hrun]]).
    + exists (Return false), s1, [EvGet (url x) r]. simpl.
      rewrite (bind_Val _ _ _ _ _ _ Hrun). simpl.
      repeat split; [ exact Hh | ]. constructor. exact Hf.
    + destruct (IH s1) as (f & s2 & t & Hrest & Hh2 & Hp).
      exists f, s2, (EvGet (url x) r :: t). simpl.
      rewrite (bind_Val _ _ _ _ _ _ Hrun). rewrite Hrest. simpl.
      repeat split; [ congruence | ]. constructor; assumption.
Qed.

Lemma probed_Next_length {A : Type} (url : A -> string) fails xs t :
  probed url fails xs t Next -> length t = length xs.
Proof.
  intros Hp. remember Next as f eqn:Hf.
  induction Hp; simpl; [ reflexivity | discriminate | ].
  rewrite IHHp by assumption. reflexivity.
Qed.

Lemma probed_Return {A : Type} (url : A -> string) fails xs t b :
  probed url fails xs t (Return b) ->
  b = false /\ (0 < length t)%nat /\ (length t <= length xs)%nat.
Proof.
  intros Hp. remember (Return b) as f eqn:Hf.
  induction Hp; simpl.
  - discriminate.
  - split; [ congruence | lia ].
  - destruct (IHHp Hf) as (? & ? & ?). repeat split; [ assumption | lia | lia ].
Qed.

(** The [i]-th call of a loop is the fetch of the [i]-th element; if its
    answer fails, the loop returns false and that call is the last one, and
    if not, the loop goes on. *)
Lemma probed_lookup {A : Type} (url : A -> string) fails xs t f i x ev :
  probed url fails xs t f ->
  xs !! i = Some x ->
  t !! i = Some ev ->
  exists r, ev = EvGet (url x) r /\
    ((fails x r /\ f = Return false /\ length t = S i) \/
     (~ fails x r /\ (f = Next \/ (S i < length t)%nat))).
Proof.
  intros Hp. revert i. induction Hp; intros i Hx Hev.
  - discriminate.
  - destruct i as [ | i]; [ | discriminate ]. simpl in Hx, Hev.
    exists r. split; [ congruence | ]. left. repeat split. congruence.
  - destruct i as [ | i]; simpl in Hx, Hev.
    + exists r. split; [ congruence | ]. right. split; [ congruence | ].
      destruct f as [ | b]; [ left; reflexivity | right ].
      apply probed_Return in Hp. simpl. lia.
    + destruct (IHHp i Hx Hev) as (r' & -> & [(Hf & -> & Hlen) | (Hok & Hgo)]).
      * exists r'. split; [ reflexivity | ]. left. simpl. auto.
      * exists r'. split; [ reflexivity | ]. right. split; [ exact Hok | ].
        destruct Hgo as [-> | Hlt]; [ left; reflexivity | right; simpl; lia ].
Qed.

(** ** The proxy probe as a whole *)

Lemma orElse_run (f : M Flow) (rest : M bool) s fl s1 t1 :
  f s = (Val fl, s1, t1) ->
  orElse f rest s
  = match fl with
    | Return b => (Val b, s1, t1 ++ [])
    | Next => let '(o, s2, t2) := rest s1 in (o, s2, t1 ++ t2)
    end.
Proof.
  intros Hf. unfold orElse. rewrite (bind_Val _ _ _ _ _ _ Hf).
  destruct fl; reflexivity.
Qed.

(** [traefikIsHealthy] always returns, leaves [healthy] alone, and its calls
    and verdict are those of [probe_run]. *)
Lemma traefikIsHealthy_run hosts eps ttl s :
  exists b s' t,
    traefikIsHealthy hosts eps ttl s = (Val b, s', t) /\
    healthy s' = healthy s /\
    probe_run hosts eps ttl t b.
Proof.
  unfold traefikIsHealthy.
  destruct (forRange_probed _ _ _ providersBody_probes hosts s)
    as (f1 & s1 & t1 & Hrun1 & Hh1 & Hp1).
  rewrite (orElse_run _ _ _ _ _ _ Hrun1).
  destruct f1 as [ | b1].
  2: { destruct (probed_Return _ _ _ _ _ Hp1) as (-> & _).
       exists false, s1, t1.
       split; [ rewrite app_nil_r; reflexivity | ].
       split; [ exact Hh1 | ]. constructor. exact Hp1. }
  assert (exists f2 s2 t2,
             (if negb (ttl =? 0) then forRange hosts (healthBody ttl) else ret Next) s1
             = (Val f2, s2, t2) /\ healthy s2 = healthy s1 /\
             ((f2 = Next /\ uptime_phase ttl hosts t2) \/
              (f2 = Return false /\ ttl <> 0 /\
               probed healthURL (uptime_fails ttl) hosts t2 (Return false))))
    as (f2 & s2 & t2 & Hrun2 & Hh2 & Hp2).
  { destruct (Z.eqb_spec ttl 0) as [Hz | Hnz]; simpl.
    - exists Next, s1, []. repeat split. left. split; [ reflexivity | ].
      left. split; [ exact Hz | reflexivity ].
    - destruct (forRange_probed _ _ _ (healthBody_probes ttl) hosts s1)
        as (f2 & s2 & t2 & Hrun2 & Hh2 & Hp2).
      exists f2, s2, t2. repeat split; [ exact Hrun2 | exact Hh2 | ].
      destruct f2 as [ | b2].
      + left. split; [ reflexivity | ]. right. split; assumption.
      + destruct (probed_Return _ _ _ _ _ Hp2) as (-> & _).
        right. repeat split; assumption. }
  rewrite (orElse_run _ _ _ _ _ _ Hrun2).
  destruct Hp2 as [(-> & Hphase) | (-> & Hnz & Hp2)].
  2: { exists false, s2, (t1 ++ t2).
       split; [ rewrite app_nil_r; reflexivity | ].
       split; [ congruence | ]. constructor; assumption. }
  destruct (forRange_probed _ _ _ entrypointBody_probes eps s2)
    as (f3 & s3 & t3 & Hrun3 & Hh3 & Hp3).
  rewrite (orElse_run _ _ _ _ _ _ Hrun3).
  destruct f3 as [ | b3].
  - exists true, s3, (t1 ++ t2 ++ t3).
    split; [ unfold ret; rewrite app_nil_r; reflexivity | ].
    split; [ congruence | ]. apply run_healthy; assumption.
  - destruct (probed_Return _ _ _ _ _ Hp3) as (-> & _).
    exists false, s3, (t1 ++ t2 ++ t3).
    split; [ rewrite app_nil_r; reflexivity | ].
    split; [ congruence | ]. apply run_entrypoint_fails; assumption.
Qed.

Lemma uptime_phase_length ttl hosts t :
  uptime_phase ttl hosts t ->
  (length hosts + length t)%nat = entrypointsStart hosts ttl.
Proof.
  unfold entrypointsStart.
  intros [(-> & ->) | (Hnz & Hp)].
  - simpl. lia.
  - apply Z.eqb_neq in Hnz. rewrite Hnz.
    rewrite (probed_Next_length _ _ _ _ Hp). reflexivity.
Qed.

(** What the [i]-th call of a probe is when it is there: the listing of the
    [i]-th host. *)
Lemma probe_run_listing hosts eps ttl t b i host ev :
  probe_run hosts eps ttl t b ->
  hosts !! i = Some host ->
  t !! i = Some ev ->
  exists r, ev = EvGet (providersURL host) r /\
    ((listing_fails host r /\ b = false /\ length t = S i) \/
     (~ listing_fails host r /\ (b = false -> (S i < length t)%nat))).
Proof.
  intros Hrun Hhost Hev.
  pose proof (lookup_lt_Some _ _ _ Hhost) as Hi.
  destruct Hrun as [t1 Hp1 | t1 t2 Hp1 Hnz Hp2 | t1 t2 t3 Hp1 Hph Hp3 | t1 t2 t3 Hp1 Hph Hp3].
  - destruct (probed_lookup _ _ _ _ _ _ _ _ Hp1 Hhost Hev)
      as (r & -> & [(Hf & _ & Hlen) | (Hok & [Hn | Hlt])]);
      exists r; split; try reflexivity; [ left | discriminate | right ]; auto.
  - pose proof (probed_Next_length _ _ _ _ Hp1) as Hl1.
    rewrite lookup_app_l in Hev by lia.
    destruct (probed_lookup _ _ _ _ _ _ _ _ Hp1 Hhost Hev)
      as (r & -> & [(Hf & Hd & _) | (Hok & _)]); [ discriminate | ].
    exists r. split; [ reflexivity | ]. right. split; [ exact Hok | ].
    intros _. apply probed_Return in Hp2. rewrite length_app. lia.
  - pose proof (probed_Next_length _ _ _ _ Hp1) as Hl1.
    rewrite lookup_app_l in Hev by lia.
    destruct (probed_lookup _ _ _ _ _ _ _ _ Hp1 Hhost Hev)
      as (r & -> & [(Hf & Hd & _) | (Hok & _)]); [ discriminate | ].
    exists r. split; [ reflexivity | ]. right. split; [ exact Hok | ].
    intros _. apply probed_Return in Hp3. rewrite !length_app. lia.
  - pose proof (probed_Next_length _ _ _ _ Hp1) as Hl1.
    rewrite lookup_app_l in Hev by lia.
    destruct (probed_lookup _ _ _ _ _ _ _ _ Hp1 Hhost Hev)
      as (r & -> & [(Hf & Hd & _) | (Hok & _)]); [ discriminate | ].
    exists r. split; [ reflexivity | ]. right. split; [ exact Hok | discriminate ].
Qed.

(** With [ttl <> 0], the call at [length hosts + i] is the uptime fetch of the
    [i]-th host. *)
Lemma probe_run_uptime hosts eps ttl t b i host ev :
  probe_run hosts eps ttl t b ->
  ttl <> 0 ->
  hosts !! i = Some host ->
  t !! (length hosts + i)%nat = Some ev ->
  exists r, ev = EvGet (healthURL host) r /\
    ((uptime_fails ttl host r /\ b = false /\ length t = S (length hosts + i)) \/
     (~ uptime_fails ttl host r /\ (b = false -> (S (length hosts + i) < length t)%nat))).
Proof.
  intros Hrun Hnz Hhost Hev.
  pose proof (lookup_lt_Some _ _ _ Hhost) as Hi.
  destruct Hrun as [t1 Hp1 | t1 t2 Hp1 _ Hp2 | t1 t2 t3 Hp1 Hph Hp3 | t1 t2 t3 Hp1 Hph Hp3].
  - apply lookup_lt_Some in Hev. apply probed_Return in Hp1. lia.
  - pose proof (probed_Next_length _ _ _ _ Hp1) as Hl1.
    rewrite lookup_app_r in Hev by lia.
    replace (length hosts + i - length t1)%nat with i in Hev by lia.
    destruct (probed_lookup _ _ _ _ _ _ _ _ Hp2 Hhost Hev)
      as (r & -> & [(Hf & _ & Hlen) | (Hok & [Hn | Hlt])]);
      exists r; split; try reflexivity; [ left | discriminate | right ].
    + repeat split; [ exact Hf | rewrite length_app; lia ].
    + split; [ exact Hok | ]. intros _. rewrite length_app. lia.
  - pose proof (probed_Next_length _ _ _ _ Hp1) as Hl1.
    destruct Hph as [(Hz & _) | (_ & Hp2)]; [ contradiction | ].
    pose proof (probed_Next_length _ _ _ _ Hp2) as Hl2.
    rewrite lookup_app_r in Hev by lia.
    replace (length hosts + i - length t1)%nat with i in Hev by lia.
    rewrite lookup_app_l in Hev by lia.
    destruct (probed_lookup _ _ _ _ _ _ _ _ Hp2 Hhost Hev)
      as (r & -> & [(Hf & Hd & _) | (Hok & _)]); [ discriminate | ].
    exists r. split; [ reflexivity | ]. right. split; [ exact Hok | ].
    intros _. apply probed_Return in Hp3. rewrite !length_app. lia.
  - pose proof (probed_Next_length _ _ _ _ Hp1) as Hl1.
    destruct Hph as [(Hz & _) | (_ & Hp2)]; [ contradiction | ].
    pose proof (probed_Next_length _ _ _ _ Hp2) as Hl2.
    rewrite lookup_app_r in Hev by lia.
    replace (length hosts + i - length t1)%nat with i in Hev by lia.
    rewrite lookup_app_l in Hev by lia.
    destruct (probed_lookup _ _ _ _ _ _ _ _ Hp2 Hhost Hev)
      as (r & -> & [(Hf & Hd & _) | (Hok & _)]); [ discriminate | ].
    exists r. split; [ reflexivity | ]. right. split; [ exact Hok | discriminate ].
Qed.

(** The call at [entrypointsStart hosts ttl + j] is the probe of the [j]-th
    entrypoint. *)
Lemma probe_run_entrypoint hosts eps ttl t b j url ev :
  probe_run hosts eps ttl t b ->
  eps !! j = Some url ->
  t !! (entrypointsStart hosts ttl + j)%nat = Some ev ->
  exists r, ev = EvGet url r /\
    ((entrypoint_fails url r /\ b = false /\
      length t = S (entrypointsStart hosts ttl + j)) \/
     (~ entrypoint_fails url r /\
      (b = false -> (S (entrypointsStart hosts ttl + j) < length t)%nat))).
Proof.
  intros Hrun Hurl Hev.
  destruct Hrun as [t1 Hp1 | t1 t2 Hp1 Hnz Hp2 | t1 t2 t3 Hp1 Hph Hp3 | t1 t2 t3 Hp1 Hph Hp3].
  - apply lookup_lt_Some in Hev. apply probed_Return in Hp1.
    unfold entrypointsStart in Hev. destruct (ttl =? 0); lia.
  - apply lookup_lt_Some in Hev. rewrite length_app in Hev.
    pose proof (probed_Next_length _ _ _ _ Hp1). apply probed_Return in Hp2.
    unfold entrypointsStart in Hev. apply Z.eqb_neq in Hnz. rewrite Hnz in Hev. lia.
  - pose proof (probed_Next_length _ _ _ _ Hp1) as Hl1.
    pose proof (uptime_phase_length _ _ _ Hph) as Hl2.
    rewrite app_assoc in *. rewrite lookup_app_r in Hev by (rewrite length_app; lia).
    replace (entrypointsStart hosts ttl + j - length (t1 ++ t2))%nat with j in Hev
      by (rewrite length_app; lia).
    destruct (probed_lookup _ _ _ _ _ _ _ _ Hp3 Hurl Hev)
      as (r & -> & [(Hf & _ & Hlen) | (Hok & [Hn | Hlt])]);
      exists r; split; try reflexivity; [ left | discriminate | right ].
    + repeat split; [ exact Hf | rewrite !length_app; lia ].
    + split; [ exact Hok | ]. intros _. rewrite !length_app. lia.
  - pose proof (probed_Next_length _ _ _ _ Hp1) as Hl1.
    pose proof (uptime_phase_length _ _ _ Hph) as Hl2.
    rewrite app_assoc in *. rewrite lookup_app_r in Hev by (rewrite length_app; lia).
    replace (entrypointsStart hosts ttl + j - length (t1 ++ t2))%nat with j in Hev
      by (rewrite length_app; lia).
    destruct (probed_lookup _ _ _ _ _ _ _ _ Hp3 Hurl Hev)
      as (r & -> & [(Hf & Hd & _) | (Hok & _)]); [ discriminate | ].
    exists r. split; [ reflexivity | ]. right. split; [ exact Hok | discriminate ].
Qed.


(** ** Provider listings *)

(** C4. If the listing fetched for the [i]-th target fails the check (a
    network error, a status other than 200, a payload that does not decode,
    or a number of distinct backend names or of distinct frontend names
    strictly below that target's minimum), then the probe returns unhealthy
    whatever the other targets answer; that call is the last one the probe
    makes, and the listing of every earlier target passed. *)
Theorem failing_listing_is_unhealthy hosts eps ttl s o s' t i host r :
  traefikIsHealthy hosts eps ttl s = (o, s', t) ->
  hosts !! i = Some host ->
  t !! i = Some (EvGet (providersURL host) r) ->
  listing_fails host r ->
  o = Val false /\
  length t = S i /\
  (forall j hostj rj,
      (j < i)%nat ->
      hosts !! j = Some hostj ->
      t !! j = Some (EvGet (providersURL hostj) rj) ->
      ~ listing_fails hostj rj).
Proof.
  intros Hrun Hhost Hev Hfails.
  destruct (traefikIsHealthy_run hosts eps ttl s) as (b & s1 & t1 & Hrun' & _ & Hshape).
  rewrite Hrun in Hrun'. injection Hrun' as -> -> ->.
  destruct (probe_run_listing _ _ _ _ _ _ _ _ Hshape Hhost Hev)
    as (r' & Heq & [(_ & -> & Hlen) | (Hok & _)]).
  2: { injection Heq as <-. contradiction. }
  split; [ reflexivity | ]. split; [ exact Hlen | ].
  intros j hostj rj Hj Hhostj Hevj.
  destruct (probe_run_listing _ _ _ _ _ _ _ _ Hshape Hhostj Hevj)
    as (r'' & Heqj & [(_ & _ & Hlenj) | (Hokj & _)]).
  - lia.
  - injection Heqj as <-. exact Hokj.
Qed.

(** ** TTL rotation *)

Lemma float64_truncate_exact f q z :
  float64_value f = Some q ->
  (q == inject_Z z)%Q ->
  float64_truncate f = Some z.
Proof.
  destruct f as [sg | sg | | sg m e]; unfold float64_value, float64_truncate;
    try discriminate.
  - intros [= <-] Hq. unfold Qeq, inject_Z in Hq. cbn [Qnum Qden] in Hq.
    f_equal. lia.
  - intros [= <-] Hq. f_equal.
    destruct e as [ | k | k].
    + change (0 <=? 0) with true. cbv iota.
      destruct sg; unfold Qeq, Qopp, inject_Z in Hq; cbn [Qnum Qden] in Hq; lia.
    + change (0 <=? Z.pos k) with true. cbv iota.
      destruct sg; unfold Qeq, Qopp, inject_Z in Hq; cbn [Qnum Qden] in Hq; lia.
    + change (0 <=? Z.neg k) with false. cbv iota.
      change (- Z.neg k) with (Z.pos k).
      assert (Hden : Z.pos (2 ^ k) = 2 ^ Z.pos k) by apply Pos2Z.inj_pow.
      assert (Hgt : 0 < 2 ^ Z.pos k) by (apply Z.pow_pos_nonneg; lia).
      destruct sg; unfold Qeq, Qopp, inject_Z in Hq; cbn [Qnum Qden] in Hq;
        rewrite Hden in Hq.
      * replace (Z.pos m) with ((- z) * 2 ^ Z.pos k) by lia.
        rewrite Z.div_mul by lia. lia.
      * replace (Z.pos m) with (z * 2 ^ Z.pos k) by lia.
        rewrite Z.div_mul by lia. reflexivity.
Qed.

Lemma int_of_float64_exact f q z :
  float64_value f = Some q ->
  (q == inject_Z z)%Q ->
  minInt <= z <= maxInt ->
  int_of_float64 f = z.
Proof.
  intros Hv Hq Hz. unfold int_of_float64.
  rewrite (float64_truncate_exact _ _ _ Hv Hq).
  destruct (Z.leb_spec minInt z); [ | lia ].
  destruct (Z.leb_spec z maxInt); [ | lia ].
  reflexivity.
Qed.

Lemma int_range_0 : minInt <= 0 <= maxInt.
Proof.
  unfold minInt, maxInt.
  destruct intSize_32_or_64 as [Hs | Hs]; rewrite Hs; simpl; lia.
Qed.

Lemma int_of_float64_zero sg : int_of_float64 (S754_zero sg) = 0.
Proof.
  unfold int_of_float64. cbn [float64_truncate].
  pose proof int_range_0 as [Hlo Hhi].
  destruct (Z.leb_spec minInt 0); [ | lia ].
  destruct (Z.leb_spec 0 maxInt); [ | lia ].
  reflexivity.
Qed.

(** The uptime call of the [i]-th target, answered with status 200: it ends
    the probe when the whole seconds of the uptime are more than [ttl], and
    lets it go on otherwise. *)
Lemma uptime_call hosts eps ttl s o s' t i host response :
  traefikIsHealthy hosts eps ttl s = (o, s', t) ->
  ttl <> 0 ->
  hosts !! i = Some host ->
  t !! (length hosts + i)%nat = Some (EvGet (healthURL host) (Ok response)) ->
  StatusCode response = 200 ->
  (int_of_float64 (UptimeSec (decoded_health response)) > ttl ->
   o = Val false /\ length t = S (length hosts + i)) /\
  (int_of_float64 (UptimeSec (decoded_health response)) <= ttl ->
   o = Val false -> (S (length hosts + i) < length t)%nat).
Proof.
  intros Hrun Hnz Hhost Hev Hst.
  destruct (traefikIsHealthy_run hosts eps ttl s) as (b & s1 & t1 & Hrun' & _ & Hshape).
  rewrite Hrun in Hrun'. injection Hrun' as -> -> ->.
  destruct (probe_run_uptime _ _ _ _ _ _ _ _ Hshape Hnz Hhost Hev)
    as (r & Heq & Hcases).
  injection Heq as <-. split.
  - intros Hgt. destruct Hcases as [(_ & -> & Hlen) | (Hok & _)].
    + split; [ reflexivity | exact Hlen ].
    + exfalso. apply Hok. right. lia.
  - intros Hle Hb. destruct Hcases as [([Hne | Hlt] & _) | (_ & Hlater)].
    + contradiction.
    + lia.
    + apply Hlater. congruence.
Qed.

(** C3, as the code has it.  With rotation enabled ([ttl <> 0], so for every
    [ttl > 0]), take the uptime answer of the [i]-th target, with status 200.
    If the whole seconds of its uptime, [int(health.UptimeSec)], are strictly
    more than [ttl], the probe returns unhealthy and makes no further call.
    If they are at most [ttl], the target passes the step: an unhealthy
    verdict can only come from a later call.  That is so in particular when
    the uptime equals [ttl] exactly.  With [ttl = 0] there is no uptime
    fetch: every call of the probe is the listing fetch of a target or the
    probe of an entrypoint. *)
Theorem uptime_whole_seconds_past_ttl hosts eps ttl s o s' t :
  traefikIsHealthy hosts eps ttl s = (o, s', t) ->
  (ttl <> 0 ->
   forall i host response,
     hosts !! i = Some host ->
     t !! (length hosts + i)%nat = Some (EvGet (healthURL host) (Ok response)) ->
     StatusCode response = 200 ->
     (int_of_float64 (UptimeSec (decoded_health response)) > ttl ->
      o = Val false /\ length t = S (length hosts + i)) /\
     (int_of_float64 (UptimeSec (decoded_health response)) <= ttl ->
      o = Val false -> (S (length hosts + i) < length t)%nat) /\
     (forall q,
         float64_value (UptimeSec (decoded_health response)) = Some q ->
         (q == inject_Z ttl)%Q ->
         minInt <= ttl <= maxInt ->
         o = Val false -> (S (length hosts + i) < length t)%nat)) /\
  (ttl = 0 ->
   forall k ev,
     t !! k = Some ev ->
     (exists host r, hosts !! k = Some host /\ ev = EvGet (providersURL host) r) \/
     (exists j url r,
         k = (length hosts + j)%nat /\ eps !! j = Some url /\ ev = EvGet url r)).
Proof.
  intros Hrun. split.
  - intros Hnz i host response Hhost Hev Hst.
    destruct (uptime_call _ _ _ _ _ _ _ _ _ _ Hrun Hnz Hhost Hev Hst) as (Hfail & Hpass).
    split; [ exact Hfail | ]. split; [ exact Hpass | ].
    intros q Hv Hq Hrange. apply Hpass.
    rewrite (int_of_float64_exact _ _ _ Hv Hq Hrange). lia.
  - intros -> k ev Hev.
    destruct (traefikIsHealthy_run hosts eps 0 s) as (b & s1 & t1 & Hrun' & _ & Hshape).
    rewrite Hrun in Hrun'. injection Hrun' as -> -> ->.
    destruct Hshape as [t1 Hp1 | t1 t2 Hp1 Hnz Hp2 | t1 t2 t3 Hp1 Hph Hp3 | t1 t2 t3 Hp1 Hph Hp3].
    + left. clear Hrun. revert k Hev.
      remember (Return false) as f eqn:Hf. clear Hf.
      induction Hp1 as [ | x xs r Hx | x xs r t f Hx Hp IH]; intros k Hev.
      * discriminate.
      * destruct k as [ | k]; [ | discriminate ]. exists x, r. split; [ reflexivity | ].
        simpl in Hev. congruence.
      * destruct k as [ | k]; simpl in Hev.
        -- exists x, r. split; [ reflexivity | congruence ].
        -- apply IH. exact Hev.
    + contradiction.
    + destruct Hph as [(_ & ->) | (Hnz & _)]; [ | contradiction ].
      simpl in Hev. clear Hrun.
      pose proof (probed_Next_length _ _ _ _ Hp1) as Hl1.
      destruct (Nat.lt_ge_cases k (length t1)) as [Hlt | Hge].
      * left. rewrite lookup_app_l in Hev by exact Hlt.
        destruct (lookup_lt_is_Some_2 hosts k ltac:(lia)) as (host & Hhost).
        destruct (probed_lookup _ _ _ _ _ _ _ _ Hp1 Hhost Hev) as (r & -> & _).
        exists host, r. split; [ exact Hhost | reflexivity ].
      * right. rewrite lookup_app_r in Hev by exact Hge.
        pose proof (lookup_lt_Some _ _ _ Hev) as Hk.
        apply probed_Return in Hp3 as Hl3.
        destruct (lookup_lt_is_Some_2 eps (k - length t1) ltac:(lia)) as (url & Hurl).
        destruct (probed_lookup _ _ _ _ _ _ _ _ Hp3 Hurl Hev) as (r & -> & _).
        exists (k - length t1)%nat, url, r.
        split; [ lia | ]. split; [ exact Hurl | reflexivity ].
    + destruct Hph as [(_ & ->) | (Hnz & _)]; [ | contradiction ].
      simpl in Hev. clear Hrun.
      pose proof (probed_Next_length _ _ _ _ Hp1) as Hl1.
      destruct (Nat.lt_ge_cases k (length t1)) as [Hlt | Hge].
      * left. rewrite lookup_app_l in Hev by exact Hlt.
        destruct (lookup_lt_is_Some_2 hosts k ltac:(lia)) as (host & Hhost).
        destruct (probed_lookup _ _ _ _ _ _ _ _ Hp1 Hhost Hev) as (r & -> & _).
        exists host, r. split; [ exact Hhost | reflexivity ].
      * right. rewrite lookup_app_r in Hev by exact Hge.
        pose proof (lookup_lt_Some _ _ _ Hev) as Hk.
        pose proof (probed_Next_length _ _ _ _ Hp3) as Hl3.
        destruct (lookup_lt_is_Some_2 eps (k - length t1) ltac:(lia)) as (url & Hurl).
        destruct (probed_lookup _ _ _ _ _ _ _ _ Hp3 Hurl Hev) as (r & -> & _).
        exists (k - length t1)%nat, url, r.
        split; [ lia | ]. split; [ exact Hurl | reflexivity ].
Qed.


(** C8, as the code has it.  In the uptime step the error of [Decode] is
    never read: after an answer with status 200 whose payload did not decode,
    the step compares whatever [Decode] left in the uptime field, exactly as
    after a payload that decoded.  So the loop body returns unhealthy when
    the whole seconds of that field are more than [ttl] and goes on
    otherwise, and in a probe the call that got this answer ends it,
    unhealthy, in the first case and cannot be the cause of an unhealthy
    verdict in the second.  When [Decode] left the field at its zero value,
    then for every [ttl >= 0] it is the second case. *)
Theorem uptime_decode_error_is_ignored ttl host response health e :
  0 <= ttl ->
  StatusCode response = 200 ->
  json_Decode_TraefikHealth (Body response) zeroTraefikHealth = (health, Some e) ->
  (forall s w,
      http_Get (healthURL host) (world s) = (Ok response, w) ->
      healthBody ttl host s
      = (Val (if int_of_float64 (UptimeSec health) >? ttl then Return false else Next),
         mkState _ w (healthy s), [EvGet (healthURL host) (Ok response)])) /\
  (forall hosts eps i s o s' t,
      traefikIsHealthy hosts eps ttl s = (o, s', t) ->
      ttl <> 0 ->
      hosts !! i = Some host ->
      t !! (length hosts + i)%nat = Some (EvGet (healthURL host) (Ok response)) ->
      (int_of_float64 (UptimeSec health) > ttl ->
       o = Val false /\ length t = S (length hosts + i)) /\
      (int_of_float64 (UptimeSec health) <= ttl ->
       o = Val false -> (S (length hosts + i) < length t)%nat)) /\
  (UptimeSec health = UptimeSec zeroTraefikHealth ->
   (forall s w,
       http_Get (healthURL host) (world s) = (Ok response, w) ->
       healthBody ttl host s
       = (Val Next, mkState _ w (healthy s), [EvGet (healthURL host) (Ok response)])) /\
   (forall hosts eps i s o s' t,
       traefikIsHealthy hosts eps ttl s = (o, s', t) ->
       ttl <> 0 ->
       hosts !! i = Some host ->
       t !! (length hosts + i)%nat = Some (EvGet (healthURL host) (Ok response)) ->
       o = Val false -> (S (length hosts + i) < length t)%nat)).
Proof.
  intros Httl Hst Hdec.
  assert (Hbody : forall s w,
             http_Get (healthURL host) (world s) = (Ok response, w) ->
             healthBody ttl host s
             = (Val (if int_of_float64 (UptimeSec health) >? ttl
                     then Return false else Next),
                mkState _ w (healthy s), [EvGet (healthURL host) (Ok response)])).
  { intros s w Hget. unfold healthBody. fold (healthURL host).
    rewrite (bind_Val _ _ _ _ _ _ (Get_run _ s)). rewrite Hget. cbn [fst snd].
    rewrite Hst. change (negb (200 =? 200)) with false. cbv iota.
    rewrite Hdec. destruct (_ >? ttl); reflexivity. }
  assert (Hprobe : forall hosts eps i s o s' t,
             traefikIsHealthy hosts eps ttl s = (o, s', t) ->
             ttl <> 0 ->
             hosts !! i = Some host ->
             t !! (length hosts + i)%nat = Some (EvGet (healthURL host) (Ok response)) ->
             (int_of_float64 (UptimeSec health) > ttl ->
              o = Val false /\ length t = S (length hosts + i)) /\
             (int_of_float64 (UptimeSec health) <= ttl ->
              o = Val false -> (S (length hosts + i) < length t)%nat)).
  { intros hosts eps i s o s' t Hrun Hnz Hhost Hev.
    pose proof (uptime_call _ _ _ _ _ _ _ _ _ _ Hrun Hnz Hhost Hev Hst) as Hcall.
    unfold decoded_health in Hcall. rewrite Hdec in Hcall. exact Hcall. }
  split; [ exact Hbody | ]. split; [ exact Hprobe | ].
  intros Hzero.
  assert (Hint : int_of_float64 (UptimeSec health) = 0).
  { rewrite Hzero. apply int_of_float64_zero. }
  split.
  - intros s w Hget. rewrite (Hbody s w Hget), Hint.
    destruct (Z.gtb_spec 0 ttl) as [Hlt | _]; [ lia | reflexivity ].
  - intros hosts eps i s o s' t Hrun Hnz Hhost Hev Ho.
    destruct (Hprobe _ _ _ _ _ _ _ Hrun Hnz Hhost Hev) as (_ & Hpass).
    apply Hpass; [ lia | exact Ho ].
Qed.

(** ** Entrypoints *)

(** C5. Take the answer the probe got for the [j]-th entrypoint.  A network
    error or a status of 500 and above (503, say) makes the probe return
    unhealthy, and no further call is made.  A status below 500 (a 404, say)
    is let through: an unhealthy verdict can only come from a later call. *)
Theorem entrypoint_5xx_is_unhealthy hosts eps ttl s o s' t j url r :
  traefikIsHealthy hosts eps ttl s = (o, s', t) ->
  eps !! j = Some url ->
  t !! (entrypointsStart hosts ttl + j)%nat = Some (EvGet url r) ->
  (forall e, r = Err e ->
     o = Val false /\ length t = S (entrypointsStart hosts ttl + j)) /\
  (forall response, r = Ok response -> StatusCode response >= 500 ->
     o = Val false /\ length t = S (entrypointsStart hosts ttl + j)) /\
  (forall response, r = Ok response -> StatusCode response < 500 ->
     o = Val false -> (S (entrypointsStart hosts ttl + j) < length t)%nat).
Proof.
  intros Hrun Hurl Hev.
  destruct (traefikIsHealthy_run hosts eps ttl s) as (b & s1 & t1 & Hrun' & _ & Hshape).
  rewrite Hrun in Hrun'. injection Hrun' as -> -> ->.
  destruct (probe_run_entrypoint _ _ _ _ _ _ _ _ Hshape Hurl Hev)
    as (r' & Heq & Hcases).
  injection Heq as <-.
  split; [ | split ].
  - intros e ->. destruct Hcases as [(_ & -> & Hlen) | (Hok & _)].
    + split; [ reflexivity | exact Hlen ].
    + exfalso. apply Hok. exact I.
  - intros response -> Hge. destruct Hcases as [(_ & -> & Hlen) | (Hok & _)].
    + split; [ reflexivity | exact Hlen ].
    + exfalso. apply Hok. simpl. lia.
  - intros response -> Hlt Hb. destruct Hcases as [(Hf & _) | (_ & Hlater)].
    + simpl in Hf. lia.
    + apply Hlater. congruence.
Qed.

(** ** The backend probe *)

Lemma consulIsHealthy_run address s :
  exists b s' t,
    consulIsHealthy address s = (Val b, s', t) /\
    healthy s' = healthy s /\
    Forall (fun ev => isGet ev = false) t /\
    (b = true <->
     exists client w1 leader w2,
       api_NewClient address (world s) = (Ok client, w1) /\
       Status_Leader client w1 = (Ok leader, w2) /\
       leader <> "").
Proof.
  unfold consulIsHealthy, NewClient.
  rewrite (bind_Val _ _ _ _ _ _ (call_run _ _ s)).
  destruct (api_NewClient address (world s)) as [[client | e] w1] eqn:Hnew; cbn [fst snd].
  2: { eexists false, _, _. split; [ reflexivity | ]. split; [ reflexivity | ].
       split; [ repeat constructor | ].
       split; [ discriminate | ]. intros (c & w & l & w' & Hc & _). discriminate. }
  unfold Leader. rewrite (bind_Val _ _ _ _ _ _ (call_run _ _ _)). cbn [world healthy].
  destruct (Status_Leader client w1) as [[leader | e] w2] eqn:Hlead; cbn [fst snd].
  2: { eexists false, _, _. split; [ reflexivity | ]. split; [ reflexivity | ].
       split; [ repeat constructor | ].
       split; [ discriminate | ].
       intros (c & w & l & w' & Hc & Hl & _).
       injection Hc as <- <-. rewrite Hlead in Hl. discriminate. }
  destruct (String.eqb_spec leader "") as [Hempty | Hleader]; cbn [negb].
  - eexists false, _, _. split; [ reflexivity | ]. split; [ reflexivity | ].
    split; [ repeat constructor | ].
    split; [ discriminate | ].
    intros (c & w & l & w' & Hc & Hl & Hne).
    injection Hc as <- <-. rewrite Hlead in Hl. injection Hl as <- <-. contradiction.
  - eexists true, _, _. split; [ reflexivity | ]. split; [ reflexivity | ].
    split; [ repeat constructor | ].
    split; [ | reflexivity ]. intros _. exists client, w1, leader, w2. auto.
Qed.

(** C6. [consulIsHealthy] always returns a boolean: it neither panics nor
    exits.  It returns true exactly when the client is built and the leader
    query answers a non-empty leader; an error building the client and an
    error of the leader query both make it return false. *)
Theorem consulIsHealthy_iff_leader address s :
  exists b s' t,
    consulIsHealthy address s = (Val b, s', t) /\
    (b = true <->
     exists client w1 leader w2,
       api_NewClient address (world s) = (Ok client, w1) /\
       Status_Leader client w1 = (Ok leader, w2) /\
       leader <> "") /\
    (forall e w1, api_NewClient address (world s) = (Err e, w1) -> b = false) /\
    (forall client w1 e w2,
        api_NewClient address (world s) = (Ok client, w1) ->
        Status_Leader client w1 = (Err e, w2) ->
        b = false) /\
    (forall client w1 w2,
        api_NewClient address (world s) = (Ok client, w1) ->
        Status_Leader client w1 = (Ok "", w2) ->
        b = false).
Proof.
  destruct (consulIsHealthy_run address s) as (b & s' & t & Hrun & _ & _ & Hiff).
  exists b, s', t. split; [ exact Hrun | ]. split; [ exact Hiff | ].
  split; [ | split ].
  - intros e w1 Hnew. destruct b; [ | reflexivity ].
    destruct (proj1 Hiff eq_refl) as (c & w & l & w' & Hc & _). congruence.
  - intros client w1 e w2 Hnew Hlead. destruct b; [ | reflexivity ].
    destruct (proj1 Hiff eq_refl) as (c & w & l & w' & Hc & Hl & _).
    rewrite Hnew in Hc. injection Hc as <- <-. congruence.
  - intros client w1 w2 Hnew Hlead. destruct b; [ | reflexivity ].
    destruct (proj1 Hiff eq_refl) as (c & w & l & w' & Hc & Hl & Hne).
    rewrite Hnew in Hc. injection Hc as <- <-. rewrite Hlead in Hl.
    injection Hl as <- <-. contradiction.
Qed.

(** ** The aggregate verdict *)

Lemma andThen_run (a b : M bool) s x s1 t1 :
  a s = (Val x, s1, t1) ->
  andThen a b s
  = if x then (let '(o, s2, t2) := b s1 in (o, s2, t1 ++ t2))
    else (Val false, s1, t1).
Proof.
  intros Ha. unfold andThen. rewrite (bind_Val _ _ _ _ _ _ Ha).
  destruct x; [ reflexivity | ]. unfold ret. rewrite app_nil_r. reflexivity.
Qed.

Lemma Legacy_providersBody_probes :
  probes Legacy.providersBody Legacy.providersURL Legacy.listing_fails.
Proof.
  intros host s. unfold Legacy.providersBody.
  run_get (Legacy.providersURL host) s.
  fold (Legacy.providersURL host).
  destruct (fst (http_Get (Legacy.providersURL host) (world s))) as [response | e]; simpl.
  2: { left. split; [ exact I | reflexivity ]. }
  destruct (Z.eqb_spec (StatusCode response) 200) as [Hst | Hst]; simpl.
  2: { left. split; [ left; exact Hst | reflexivity ]. }
  destruct (json_Decode_TraefikProviders (Body response) zeroTraefikProviders)
    as [providers [e | ]] eqn:Hdec.
  { left. split; [ right; left; eauto | reflexivity ]. }
  unfold len_map.
  destruct (Z.eqb_spec (Z.of_nat (size (Backends (ConsulCatalog providers)))) 0) as [Hb | Hb].
  { left. split; [ | reflexivity ]. right. right. exists providers.
    split; [ reflexivity | left ].
    apply dom_empty_iff_L, map_size_empty_iff. lia. }
  destruct (Z.eqb_spec (Z.of_nat (size (Frontends (ConsulCatalog providers)))) 0) as [Hf | Hf].
  { left. split; [ | reflexivity ]. right. right. exists providers.
    split; [ reflexivity | right ].
    apply dom_empty_iff_L, map_size_empty_iff. lia. }
  right. split; [ | reflexivity ].
  intros [Hst' | [(p & e & He) | (p & Hp & Hempty)]].
  - contradiction.
  - congruence.
  - assert (p = providers) by congruence. subst p.
    destruct Hempty as [He | He]; apply dom_empty_iff_L in He; subst;
      [ apply Hb | apply Hf ]; rewrite He; reflexivity.
Qed.

Lemma Legacy_traefikIsHealthy_returns hosts s :
  exists b s' t,
    Legacy.traefikIsHealthy hosts s = (Val b, s', t) /\ healthy s' = healthy s.
Proof.
  unfold Legacy.traefikIsHealthy.
  destruct (forRange_probed _ _ _ Legacy_providersBody_probes hosts s)
    as (f & s1 & t1 & Hrun & Hh & _).
  rewrite (orElse_run _ _ _ _ _ _ Hrun).
  destruct f as [ | b]; eexists _, _, _; split; try reflexivity; exact Hh.
Qed.

(** C1. [isLBHealthy] is the conjunction of the two probes, the backend
    first.  The backend probe returns a boolean; run after it, the proxy
    probe returns one too, and the verdict is their conjunction.  When the
    backend probe returns false the verdict is false and the proxy probe is
    not run: the calls and the state are those of the backend probe alone,
    and no HTTP request is among them.  The same holds of the earlier
    revision. *)
Theorem isLBHealthy_is_short_circuit_and config legacy s :
  (exists backend s1 t1 proxy s2 t2,
      consulIsHealthy (ConsulHost config) s = (Val backend, s1, t1) /\
      traefikIsHealthy (TraefikHosts config) (TraefikEntrypoints config)
        (HealthyTTLSec config) s1 = (Val proxy, s2, t2) /\
      isLBHealthy config s
      = (if backend then (Val proxy, s2, t1 ++ t2) else (Val false, s1, t1)) /\
      fst (fst (isLBHealthy config s)) = Val (backend && proxy) /\
      (backend = false ->
       Forall (fun ev => isGet ev = false) (snd (isLBHealthy config s)))) /\
  (exists backend s1 t1 proxy s2 t2,
      consulIsHealthy (Legacy.ConsulHost legacy) s = (Val backend, s1, t1) /\
      Legacy.traefikIsHealthy (Legacy.TraefikHosts legacy) s1 = (Val proxy, s2, t2) /\
      Legacy.isLBHealthy legacy s
      = (if backend then (Val proxy, s2, t1 ++ t2) else (Val false, s1, t1)) /\
      fst (fst (Legacy.isLBHealthy legacy s)) = Val (backend && proxy) /\
      (backend = false ->
       Forall (fun ev => isGet ev = false) (snd (Legacy.isLBHealthy legacy s)))).
Proof.
  split.
  - destruct (consulIsHealthy_run (ConsulHost config) s)
      as (backend & s1 & t1 & Hback & _ & Hnoget & _).
    destruct (traefikIsHealthy_run (TraefikHosts config) (TraefikEntrypoints config)
                (HealthyTTLSec config) s1) as (proxy & s2 & t2 & Hproxy & _ & _).
    exists backend, s1, t1, proxy, s2, t2.
    split; [ exact Hback | ]. split; [ exact Hproxy | ].
    unfold isLBHealthy. rewrite (andThen_run _ _ _ _ _ _ Hback). rewrite Hproxy.
    destruct backend; cbn [fst snd andb].
    + repeat split. discriminate.
    + repeat split. intros _. exact Hnoget.
  - destruct (consulIsHealthy_run (Legacy.ConsulHost legacy) s)
      as (backend & s1 & t1 & Hback & _ & Hnoget & _).
    destruct (Legacy_traefikIsHealthy_returns (Legacy.TraefikHosts legacy) s1)
      as (proxy & s2 & t2 & Hproxy & _).
    exists backend, s1, t1, proxy, s2, t2.
    split; [ exact Hback | ]. split; [ exact Hproxy | ].
    unfold Legacy.isLBHealthy. rewrite (andThen_run _ _ _ _ _ _ Hback). rewrite Hproxy.
    destruct backend; cbn [fst snd andb].
    + repeat split. discriminate.
    + repeat split. intros _. exact Hnoget.
Qed.

(** C10. With [ttl = 0], no proxy target and no entrypoint, the proxy probe
    returns healthy without a single call, and leaves the state as it is; so
    when the backend probe returns true, the aggregate verdict is healthy,
    with the calls of the backend probe only. *)
Theorem empty_probe_is_healthy config s s1 t1 :
  TraefikHosts config = [] ->
  TraefikEntrypoints config = [] ->
  HealthyTTLSec config = 0 ->
  consulIsHealthy (ConsulHost config) s = (Val true, s1, t1) ->
  traefikIsHealthy (TraefikHosts config) (TraefikEntrypoints config)
    (HealthyTTLSec config) s1 = (Val true, s1, []) /\
  isLBHealthy config s = (Val true, s1, t1).
Proof.
  intros Hhosts Heps Httl Hback.
  assert (Hprobe : traefikIsHealthy (TraefikHosts config) (TraefikEntrypoints config)
                     (HealthyTTLSec config) s1 = (Val true, s1, [])).
  { rewrite Hhosts, Heps, Httl. reflexivity. }
  split; [ exact Hprobe | ].
  unfold isLBHealthy. rewrite (andThen_run _ _ _ _ _ _ Hback), Hprobe.
  rewrite app_nil_r. reflexivity.
Qed.


(** ** What a computation leaves alone *)

Lemma keeps_healthy_ret {A : Type} (a : A) : keeps_healthy (ret a).
Proof. intros s o s' t [= _ <- _]. reflexivity. Qed.

Lemma keeps_healthy_panic {A : Type} msg : keeps_healthy (@panic _ A msg).
Proof. intros s o s' t [= _ <- _]. reflexivity. Qed.

Lemma keeps_healthy_log_Fatal {A : Type} : keeps_healthy (@log_Fatal _ A).
Proof. intros s o s' t [= _ <- _]. reflexivity. Qed.

Lemma keeps_healthy_call {A : Type} (f : World -> A * World) ev :
  keeps_healthy (call f ev).
Proof. intros s o s' t. rewrite call_run. intros [= _ <- _]. reflexivity. Qed.

Lemma keeps_healthy_bind {A B : Type} (m : M A) (k : A -> M B) :
  keeps_healthy m -> (forall a, keeps_healthy (k a)) -> keeps_healthy (bind m k).
Proof.
  intros Hm Hk s o s' t. unfold bind.
  destruct (m s) as [[[a | msg | code] s1] t1] eqn:Hrun.
  - destruct (k a s1) as [[o2 s2] t2] eqn:Hrun2. intros [= _ <- _].
    rewrite (Hk _ _ _ _ _ Hrun2). exact (Hm _ _ _ _ Hrun).
  - intros [= _ <- _]. exact (Hm _ _ _ _ Hrun).
  - intros [= _ <- _]. exact (Hm _ _ _ _ Hrun).
Qed.

Lemma emits_ret {A : Type} P (a : A) : emits P (ret a).
Proof. intros s o s' t [= _ _ <-]. constructor. Qed.

Lemma emits_panic {A : Type} P msg : emits P (@panic _ A msg).
Proof. intros s o s' t [= _ _ <-]. constructor. Qed.

Lemma emits_log_Fatal {A : Type} P : emits P (@log_Fatal _ A).
Proof. intros s o s' t [= _ _ <-]. constructor. Qed.

Lemma emits_call {A : Type} (P : Event -> Prop) (f : World -> A * World) ev :
  (forall a, P (ev a)) -> emits P (call f ev).
Proof.
  intros HP s o s' t. rewrite call_run. intros [= _ _ <-].
  constructor; [ apply HP | constructor ].
Qed.

Lemma emits_bind {A B : Type} P (m : M A) (k : A -> M B) :
  emits P m -> (forall a, emits P (k a)) -> emits P (bind m k).
Proof.
  intros Hm Hk s o s' t. unfold bind.
  destruct (m s) as [[[a | msg | code] s1] t1] eqn:Hrun.
  - destruct (k a s1) as [[o2 s2] t2] eqn:Hrun2. intros [= _ _ <-].
    apply Forall_app. split; [ exact (Hm _ _ _ _ Hrun) | exact (Hk _ _ _ _ _ Hrun2) ].
  - intros [= _ _ <-]. exact (Hm _ _ _ _ Hrun).
  - intros [= _ _ <-]. exact (Hm _ _ _ _ Hrun).
Qed.

Lemma emits_forRange {A : Type} P (xs : list A) (body : A -> M Flow) :
  (forall x, emits P (body x)) -> emits P (forRange xs body).
Proof.
  intros Hbody. induction xs as [ | x xs IH]; simpl.
  - apply emits_ret.
  - apply emits_bind; [ apply Hbody | ].
    intros [ | b]; [ exact IH | apply emits_ret ].
Qed.

Lemma emits_orElse P (f : M Flow) (rest : M bool) :
  emits P f -> emits P rest -> emits P (orElse f rest).
Proof.
  intros Hf Hrest. apply emits_bind; [ exact Hf | ].
  intros [ | b]; [ exact Hrest | apply emits_ret ].
Qed.

Ltac emits_Get :=
  apply emits_bind;
  [ apply emits_call; intros; reflexivity
  | intros [? | ?]; repeat first [ apply emits_ret | match goal with
      | |- emits _ (if ?c then _ else _) => destruct c
      | |- emits _ (match ?x with (_, _) => _ end) => destruct x as [? [? | ]]
      end ] ].

(** A poll makes no draw from the random generator. *)
Lemma isLBHealthy_emits config : emits (fun ev => isIntn ev = false) (isLBHealthy config).
Proof.
  unfold isLBHealthy, andThen. apply emits_bind.
  - unfold consulIsHealthy. apply emits_bind; [ apply emits_call; reflexivity | ].
    intros [client | e]; [ | apply emits_ret ].
    apply emits_bind; [ apply emits_call; reflexivity | ].
    intros [leader | e]; [ | apply emits_ret ].
    destruct (negb _); apply emits_ret.
  - intros [ | ]; [ | apply emits_ret ].
    unfold traefikIsHealthy. repeat apply emits_orElse.
    + apply emits_forRange. intros host. unfold providersBody. emits_Get.
    + destruct (negb _); [ | apply emits_ret ].
      apply emits_forRange. intros host. unfold healthBody.
      apply emits_bind; [ apply emits_call; reflexivity | ].
      intros [response | e]; [ | apply emits_ret ].
      destruct (negb _); [ apply emits_ret | ].
      destruct (json_Decode_TraefikHealth _ _) as [health err].
      destruct (_ >? _); apply emits_ret.
    + apply emits_forRange. intros url. unfold entrypointBody. emits_Get.
    + apply emits_ret.
Qed.

Lemma isLBHealthy_run config s :
  exists b s' t,
    isLBHealthy config s = (Val b, s', t) /\ healthy s' = healthy s.
Proof.
  destruct (consulIsHealthy_run (ConsulHost config) s)
    as (backend & s1 & t1 & Hback & Hh1 & _).
  destruct (traefikIsHealthy_run (TraefikHosts config) (TraefikEntrypoints config)
              (HealthyTTLSec config) s1) as (proxy & s2 & t2 & Hproxy & Hh2 & _).
  unfold isLBHealthy. rewrite (andThen_run _ _ _ _ _ _ Hback). rewrite Hproxy.
  destruct backend; eexists _, _, _; split; try reflexivity; congruence.
Qed.

(** ** The responder and the shared state *)

Lemma serve_run s :
  serve s
  = (Val (mkResponse (if healthy s then StatusOK else StatusInternalServerError) ""),
     s, []).
Proof.
  unfold serve, handler, bind, get_healthy, ret.
  destruct (healthy s); reflexivity.
Qed.

(** A round of [pollHealth] returns, and stores the verdict of the round. *)
Lemma pollOnce_run config s :
  exists b s1 t1,
    isLBHealthy config s = (Val b, s1, t1) /\
    pollOnce config s
    = (Val tt, mkState _ (world s1) b,
       t1 ++ [EvSleep (wrapInt64 (time_Second * wrapInt64 (PollInterval config)))]).
Proof.
  destruct (isLBHealthy_run config s) as (b & s1 & t1 & Hrun & _).
  exists b, s1, t1. split; [ exact Hrun | ].
  unfold pollOnce. rewrite (bind_Val _ _ _ _ _ _ Hrun).
  unfold bind, set_healthy, Sleep, call. reflexivity.
Qed.

Lemma computeTtl_keeps_healthy ttl offset : keeps_healthy (computeTtl ttl offset).
Proof.
  unfold computeTtl.
  apply keeps_healthy_bind; [ apply keeps_healthy_call | intros now ].
  apply keeps_healthy_bind; [ apply keeps_healthy_call | intros _ ].
  apply keeps_healthy_bind; [ | intros r; apply keeps_healthy_ret ].
  unfold Intn. destruct (_ <=? 0); [ apply keeps_healthy_panic | apply keeps_healthy_call ].
Qed.

Lemma newConfig_keeps_healthy path : keeps_healthy (newConfig path).
Proof.
  unfold newConfig.
  apply keeps_healthy_bind; [ apply keeps_healthy_call | intros st ].
  apply keeps_healthy_bind.
  - destruct st as [e | ]; [ apply keeps_healthy_ret | ].
    apply keeps_healthy_bind; [ apply keeps_healthy_call | intros [config [e | ]] ].
    + apply keeps_healthy_log_Fatal.
    + apply keeps_healthy_ret.
  - intros config. destruct (HealthyTTLSec config >? 0); [ | apply keeps_healthy_ret ].
    apply keeps_healthy_bind; [ apply computeTtl_keeps_healthy | ].
    intros ttl. apply keeps_healthy_ret.
Qed.

Lemma requests_before_first_poll config s rs acts ts s' :
  steps config s (map Request rs ++ acts) ts s' ->
  healthy s = false ->
  Forall (fun response => response = mkResponse StatusInternalServerError "") rs.
Proof.
  revert s ts. induction rs as [ | r rs IH]; intros s ts Hsteps Hh.
  - constructor.
  - simpl in Hsteps. inversion Hsteps as [ | ? a t s1 acts' ts' ? Hstep Hrest]; subst.
    inversion Hstep as [ | ? ? ? ? Hserve]; subst.
    rewrite serve_run, Hh in Hserve. injection Hserve as <- <- <-.
    constructor; [ reflexivity | ]. exact (IH _ _ Hrest Hh).
Qed.

(** C7. The responder reads [healthy] and answers 500 with an empty body when
    it is false, 200 with an empty body when it is true, changing nothing and
    calling nothing.  [healthy] is false when [main] starts, and resolving the
    configuration leaves it so: in every run of the process, each request
    served before the first round of [pollHealth] gets a 500.  A round of
    [pollHealth] stores the verdict of [isLBHealthy] in it. *)
Theorem responder_reads_healthy :
  (forall s,
      serve s = (Val (mkResponse (if healthy s then 200 else 500) ""), s, [])) /\
  (forall w, healthy (initial w) = false) /\
  (forall path w rs acts events s,
      main_run path w (map Request rs ++ acts) events s ->
      Forall (fun response => response = mkResponse 500 "") rs) /\
  (forall config s t s',
      step config s Poll t s' ->
      exists b s1 t1,
        isLBHealthy config s = (Val b, s1, t1) /\ healthy s' = b).
Proof.
  split; [ exact serve_run | ]. split; [ reflexivity | ]. split.
  - intros path w rs acts events s (config & s0 & t0 & ts & Hcfg & Hsteps & _).
    apply (requests_before_first_poll _ _ _ _ _ _ Hsteps).
    exact (newConfig_keeps_healthy _ _ _ _ _ Hcfg).
  - intros config s t s' Hstep. inversion Hstep as [? ? ? Hpoll | ]; subst.
    destruct (pollOnce_run config s) as (b & s1 & t1 & Hrun & Hpoll').
    rewrite Hpoll in Hpoll'. injection Hpoll' as -> _.
    exists b, s1, t1. split; [ exact Hrun | reflexivity ].
Qed.


(** ** The TTL drawn at startup *)

Lemma wrapInt_in_range z : minInt <= z <= maxInt -> wrapInt z = z.
Proof.
  unfold wrapInt, minInt, maxInt.
  destruct intSize_32_or_64 as [Hs | Hs]; rewrite Hs.
  - replace (2 ^ (32 - 1)) with 2147483648 by reflexivity.
    replace (2 ^ 32) with 4294967296 by reflexivity.
    intros Hz. rewrite Z.mod_small by lia. lia.
  - replace (2 ^ (64 - 1)) with 9223372036854775808 by reflexivity.
    replace (2 ^ 64) with 18446744073709551616 by reflexivity.
    intros Hz. rewrite Z.mod_small by lia. lia.
Qed.

(** C2, where the code departs from it: with a jitter window of 0,
    [computeTtl] does not return the base TTL; [rand.Intn(0)] panics, after
    the clock was read and the generator seeded. *)
Theorem computeTtl_zero_window_panics ttl s :
  computeTtl ttl 0 s
  = (Panic "invalid argument to Intn",
     mkState _ (rand_Seed (fst (time_Now_Unix (world s))) (snd (time_Now_Unix (world s))))
       (healthy s),
     [EvNow (fst (time_Now_Unix (world s))); EvSeed (fst (time_Now_Unix (world s)))]).
Proof.
  unfold computeTtl, Now_Unix, Seed.
  rewrite (bind_Val _ _ _ _ _ _ (call_run _ _ s)).
  rewrite (bind_Val _ _ _ _ _ _ (call_run _ _ _)).
  unfold int_sub. change (0 - 0) with 0. rewrite (wrapInt_in_range 0 int_range_0).
  reflexivity.
Qed.

(** X1. With a window of at least 1 whose values are all [int]s,
    [computeTtl] returns a value of the window, from one draw. *)
Lemma computeTtl_in_window ttl offset s :
  0 <= ttl ->
  0 < offset <= maxInt ->
  ttl + offset - 1 <= maxInt ->
  exists r s' t,
    computeTtl ttl offset s = (Val r, s', t) /\
    ttl <= r < ttl + offset /\
    draws t = [offset].
Proof.
  intros Httl Hoff Hfit. pose proof int_range_0 as [Hlo Hhi].
  unfold computeTtl, Now_Unix, Seed.
  rewrite (bind_Val _ _ _ _ _ _ (call_run _ _ s)).
  rewrite (bind_Val _ _ _ _ _ _ (call_run _ _ _)).
  unfold int_sub. rewrite Z.sub_0_r. rewrite (wrapInt_in_range offset) by lia.
  unfold Intn. destruct (Z.leb_spec offset 0) as [Hle | _]; [ lia | ].
  rewrite (bind_Val _ _ _ _ _ _ (call_run _ _ _)). cbn [world healthy fst snd].
  set (w := rand_Seed _ _).
  pose proof (rand_draw_range offset w (proj1 Hoff)) as Hr.
  eexists _, _, _. split; [ reflexivity | ].
  unfold int_add. rewrite wrapInt_in_range by lia.
  split; [ lia | reflexivity ].
Qed.

Lemma draws_app t1 t2 : draws (t1 ++ t2) = draws t1 ++ draws t2.
Proof.
  induction t1 as [ | ev t1 IH]; [ reflexivity | ].
  destruct ev; simpl; rewrite IH; reflexivity.
Qed.

Lemma draws_none t : Forall (fun ev => isIntn ev = false) t -> draws t = [].
Proof.
  induction 1 as [ | ev t Hev _ IH]; [ reflexivity | ].
  destruct ev; simpl in *; try exact IH. discriminate.
Qed.

Lemma steps_draw_nothing config s acts ts s' :
  steps config s acts ts s' -> draws ts = [].
Proof.
  induction 1 as [ | s a t s1 acts ts s2 Hstep _ IH]; [ reflexivity | ].
  rewrite draws_app, IH, app_nil_r.
  destruct Hstep as [s s1 t Hpoll | s s1 t response Hserve].
  - destruct (pollOnce_run config s) as (b & s2' & t1 & Hrun & Hpoll').
    rewrite Hpoll in Hpoll'. injection Hpoll' as _ ->.
    rewrite draws_app. rewrite (draws_none _ (isLBHealthy_emits _ _ _ _ _ Hrun)).
    reflexivity.
  - rewrite serve_run in Hserve. injection Hserve as _ _ <-. reflexivity.
Qed.

Lemma computeTtl_draws ttl offset s r s' t :
  computeTtl ttl offset s = (Val r, s', t) -> draws t = [int_sub offset 0].
Proof.
  unfold computeTtl, Now_Unix, Seed.
  rewrite (bind_Val _ _ _ _ _ _ (call_run _ _ s)).
  rewrite (bind_Val _ _ _ _ _ _ (call_run _ _ _)).
  unfold Intn. destruct (_ <=? 0).
  - unfold bind, panic. discriminate.
  - rewrite (bind_Val _ _ _ _ _ _ (call_run _ _ _)).
    unfold ret. intros [= _ _ <-]. reflexivity.
Qed.

(** What [newConfig] does after the file was looked at. *)
Lemma newConfig_draws base s config s' t :
  (if HealthyTTLSec base >? 0
   then do ttl <- computeTtl (HealthyTTLSec base) (HealthyTTLOffset base);
        ret (withHealthyTTLSec base ttl)
   else ret base) s = (Val config, s', t) ->
  (0 < HealthyTTLSec base /\ draws t = [int_sub (HealthyTTLOffset base) 0]) \/
  (HealthyTTLSec base <= 0 /\ draws t = []).
Proof.
  destruct (Z.gtb_spec (HealthyTTLSec base) 0) as [Hpos | Hle].
  - unfold bind.
    destruct (computeTtl _ _ s) as [[[ttl | msg | code] s1] t1] eqn:Hrun;
      try discriminate.
    unfold ret. intros [= _ _ <-]. rewrite app_nil_r. left.
    split; [ lia | exact (computeTtl_draws _ _ _ _ _ _ Hrun) ].
  - unfold ret. intros [= _ _ <-]. right. split; [ lia | reflexivity ].
Qed.

(** X2. In a run of the process the random generator is asked at most once,
    by [newConfig], and only when the TTL that the configuration file sets
    is positive: the window it is asked for is then the file's offset. *)
Lemma Intn_at_most_once path w acts events s :
  main_run path w acts events s ->
  exists base,
    loaded path w base /\
    ((0 < HealthyTTLSec base /\ draws events = [int_sub (HealthyTTLOffset base) 0]) \/
     (HealthyTTLSec base <= 0 /\ draws events = [])).
Proof.
  intros (config & s0 & t0 & ts & Hcfg & Hsteps & ->).
  rewrite draws_app, (steps_draw_nothing _ _ _ _ _ Hsteps), app_nil_r.
  revert Hcfg. unfold newConfig, Stat.
  rewrite (bind_Val _ _ _ _ _ _ (call_run _ _ _)). cbn [world healthy initial].
  destruct (os_Stat path w) as [[e | ] w1] eqn:Hstat; cbn [fst snd].
  - rewrite (bind_Val _ _ _ _ _ _ eq_refl).
    destruct (_ (mkState _ w1 false)) as [[o s1] t1] eqn:Hrest.
    intros [= -> -> <-]. exists defaultConfig.
    split; [ left; eauto | ]. exact (newConfig_draws defaultConfig _ _ _ _ Hrest).
  - unfold ReadConfig. unfold bind at 1. unfold bind at 1. rewrite call_run.
    cbn [world healthy].
    destruct (json_Decode_Configuration path defaultConfig w1)
      as [[base [e | ]] w2] eqn:Hdec; cbn [fst snd]; [ discriminate | ].
    unfold ret at 1. cbn iota beta.
    destruct (_ (mkState _ w2 false)) as [[o s1] t1] eqn:Hrest.
    intros [= -> -> <-]. exists base.
    split; [ right; eauto | ]. exact (newConfig_draws base _ _ _ _ Hrest).
Qed.

End Proofs.

(** * More of the program *)

Section More.

Context `{Outside}.

(** ** What a verdict of the proxy probe says about its calls *)

Lemma probed_Next_lookup {A : Type} (url : A -> string) fails xs t i x :
  probed url fails xs t Next ->
  xs !! i = Some x ->
  exists r, t !! i = Some (EvGet (url x) r) /\ ~ fails x r.
Proof.
  intros Hp Hx.
  pose proof (probed_Next_length _ _ _ _ Hp) as Hlen.
  destruct (lookup_lt_is_Some_2 t i) as (ev & Hev).
  { rewrite Hlen. exact (lookup_lt_Some _ _ _ Hx). }
  destruct (probed_lookup _ _ _ _ _ _ _ _ Hp Hx Hev)
    as (r & -> & [(_ & Hd & _) | (Hok & _)]); [ discriminate | ].
  exists r. split; [ exact Hev | exact Hok ].
Qed.

Lemma probed_Return_last {A : Type} (url : A -> string) fails xs t b :
  probed url fails xs t (Return b) ->
  exists k x r,
    length t = S k /\ xs !! k = Some x /\
    t !! k = Some (EvGet (url x) r) /\ fails x r.
Proof.
  intros Hp. remember (Return b) as f eqn:Hf.
  induction Hp as [ | x xs r Hx | x xs r t f Hx Hp IH].
  - discriminate.
  - exists 0%nat, x, r. repeat split. exact Hx.
  - destruct (IH Hf) as (k & y & r' & Hlen & Hy & Hev & Hfails).
    exists (S k), y, r'. simpl. rewrite Hlen. repeat split; assumption.
Qed.

(** X4. A healthy verdict means that every check was made and passed: the
    listing of every target, the uptime of every target when [ttl <> 0], and
    every entrypoint, in this order, with no other call. *)
Theorem healthy_means_every_check_passed hosts eps ttl s s' t :
  traefikIsHealthy hosts eps ttl s = (Val true, s', t) ->
  length t = (entrypointsStart hosts ttl + length eps)%nat /\
  (forall i host,
      hosts !! i = Some host ->
      exists r, t !! i = Some (EvGet (providersURL host) r) /\
                ~ listing_fails host r) /\
  (ttl <> 0 ->
   forall i host,
     hosts !! i = Some host ->
     exists r, t !! (length hosts + i)%nat = Some (EvGet (healthURL host) r) /\
               ~ uptime_fails ttl host r) /\
  (forall j url,
      eps !! j = Some url ->
      exists r, t !! (entrypointsStart hosts ttl + j)%nat = Some (EvGet url r) /\
                ~ entrypoint_fails url r).
Proof.
  intros Hrun.
  destruct (traefikIsHealthy_run hosts eps ttl s) as (b & s1 & tr & Hrun' & _ & Hshape).
  rewrite Hrun in Hrun'. injection Hrun' as <- -> ->.
  inversion Hshape as [ | | | t1 t2 t3 Hp1 Hph Hp3 Ht ]; subst.
  pose proof (probed_Next_length _ _ _ _ Hp1) as Hl1.
  pose proof (uptime_phase_length _ _ _ Hph) as Hl2.
  pose proof (probed_Next_length _ _ _ _ Hp3) as Hl3.
  split; [ rewrite !length_app; lia | ]. split; [ | split ].
  - intros i host Hhost.
    destruct (probed_Next_lookup _ _ _ _ _ _ Hp1 Hhost) as (r & Hev & Hok).
    exists r. split; [ | exact Hok ].
    rewrite lookup_app_l by exact (lookup_lt_Some _ _ _ Hev). exact Hev.
  - intros Hnz i host Hhost.
    destruct Hph as [(Hz & _) | (_ & Hp2)]; [ contradiction | ].
    destruct (probed_Next_lookup _ _ _ _ _ _ Hp2 Hhost) as (r & Hev & Hok).
    exists r. split; [ | exact Hok ].
    rewrite lookup_app_r by lia.
    replace (length hosts + i - length t1)%nat with i by lia.
    rewrite lookup_app_l by exact (lookup_lt_Some _ _ _ Hev). exact Hev.
  - intros j url Hurl.
    destruct (probed_Next_lookup _ _ _ _ _ _ Hp3 Hurl) as (r & Hev & Hok).
    exists r. split; [ | exact Hok ].
    rewrite app_assoc. rewrite lookup_app_r by (rewrite length_app; lia).
    replace (entrypointsStart hosts ttl + j - length (t1 ++ t2))%nat with j
      by (rewrite length_app; lia).
    exact Hev.
Qed.

(** X5. An unhealthy verdict always has a cause: the probe made at least one
    call, and the last call it made got a failing answer, be it the listing
    of a target, the uptime of a target, or an entrypoint. *)
Theorem unhealthy_means_last_call_failed hosts eps ttl s s' t :
  traefikIsHealthy hosts eps ttl s = (Val false, s', t) ->
  exists k ev,
    length t = S k /\ t !! k = Some ev /\
    ((exists host r,
         hosts !! k = Some host /\
         ev = EvGet (providersURL host) r /\ listing_fails host r) \/
     (exists i host r,
         ttl <> 0 /\ k = (length hosts + i)%nat /\ hosts !! i = Some host /\
         ev = EvGet (healthURL host) r /\ uptime_fails ttl host r) \/
     (exists j url r,
         k = (entrypointsStart hosts ttl + j)%nat /\ eps !! j = Some url /\
         ev = EvGet url r /\ entrypoint_fails url r)).
Proof.
  intros Hrun.
  destruct (traefikIsHealthy_run hosts eps ttl s) as (b & s1 & tr & Hrun' & _ & Hshape).
  rewrite Hrun in Hrun'. injection Hrun' as <- -> ->.
  inversion Hshape as [ t1 Hp1 | t1 t2 Hp1 Hnz Hp2 | t1 t2 t3 Hp1 Hph Hp3 | ]; subst.
  - destruct (probed_Return_last _ _ _ _ _ Hp1) as (k & host & r & Hlen & Hhost & Hev & Hf).
    exists k, (EvGet (providersURL host) r). split; [ exact Hlen | ].
    split; [ exact Hev | ]. left. exists host, r. auto.
  - pose proof (probed_Next_length _ _ _ _ Hp1) as Hl1.
    destruct (probed_Return_last _ _ _ _ _ Hp2) as (k & host & r & Hlen & Hhost & Hev & Hf).
    exists (length hosts + k)%nat, (EvGet (healthURL host) r).
    split; [ rewrite length_app; lia | ]. split.
    + rewrite lookup_app_r by lia.
      replace (length hosts + k - length t1)%nat with k by lia. exact Hev.
    + right. left. exists k, host, r. auto.
  - pose proof (probed_Next_length _ _ _ _ Hp1) as Hl1.
    pose proof (uptime_phase_length _ _ _ Hph) as Hl2.
    destruct (probed_Return_last _ _ _ _ _ Hp3) as (k & url & r & Hlen & Hurl & Hev & Hf).
    exists (entrypointsStart hosts ttl + k)%nat, (EvGet url r).
    split; [ rewrite !length_app; lia | ]. split.
    + rewrite app_assoc. rewrite lookup_app_r by (rewrite length_app; lia).
      replace (entrypointsStart hosts ttl + k - length (t1 ++ t2))%nat with k
        by (rewrite length_app; lia).
      exact Hev.
    + right. right. exists k, url, r. auto.
Qed.

(** ** What a round of polling calls *)

Lemma probed_calls {A : Type} (url : A -> string) fails xs t f :
  probed url fails xs t f ->
  (length t <= length xs)%nat /\ Forall (fun ev => isProbe ev = true) t.
Proof.
  induction 1 as [ | x xs r Hx | x xs r t f Hx Hp [IHl IHf]]; simpl.
  - split; [ lia | constructor ].
  - split; [ lia | repeat constructor ].
  - split; [ lia | constructor; [ reflexivity | exact IHf ] ].
Qed.

Lemma probe_run_calls hosts eps ttl t b :
  probe_run hosts eps ttl t b ->
  (length t <= entrypointsStart hosts ttl + length eps)%nat /\
  Forall (fun ev => isProbe ev = true) t.
Proof.
  assert (Hstart : (length hosts <= entrypointsStart hosts ttl)%nat).
  { unfold entrypointsStart. destruct (ttl =? 0); lia. }
  intros [t1 Hp1 | t1 t2 Hp1 Hnz Hp2 | t1 t2 t3 Hp1 Hph Hp3 | t1 t2 t3 Hp1 Hph Hp3].
  - destruct (probed_calls _ _ _ _ _ Hp1) as (Hl & Hf). split; [ lia | exact Hf ].
  - destruct (probed_calls _ _ _ _ _ Hp1) as (Hl1 & Hf1).
    destruct (probed_calls _ _ _ _ _ Hp2) as (Hl2 & Hf2).
    split; [ | apply Forall_app; auto ].
    rewrite length_app. unfold entrypointsStart.
    apply Z.eqb_neq in Hnz. rewrite Hnz. lia.
  - destruct (probed_calls _ _ _ _ _ Hp1) as (_ & Hf1).
    destruct (probed_calls _ _ _ _ _ Hp3) as (Hl3 & Hf3).
    pose proof (probed_Next_length _ _ _ _ Hp1) as Hl1.
    pose proof (uptime_phase_length _ _ _ Hph) as Hl2.
    split; [ rewrite !length_app; lia | ].
    apply Forall_app. split; [ exact Hf1 | ]. apply Forall_app. split; [ | exact Hf3 ].
    destruct Hph as [(_ & ->) | (_ & Hp2)]; [ constructor | ].
    exact (proj2 (probed_calls _ _ _ _ _ Hp2)).
  - destruct (probed_calls _ _ _ _ _ Hp1) as (_ & Hf1).
    destruct (probed_calls _ _ _ _ _ Hp3) as (Hl3 & Hf3).
    pose proof (probed_Next_length _ _ _ _ Hp1) as Hl1.
    pose proof (uptime_phase_length _ _ _ Hph) as Hl2.
    split; [ rewrite !length_app; lia | ].
    apply Forall_app. split; [ exact Hf1 | ]. apply Forall_app. split; [ | exact Hf3 ].
    destruct Hph as [(_ & ->) | (_ & Hp2)]; [ constructor | ].
    exact (proj2 (probed_calls _ _ _ _ _ Hp2)).
Qed.

(** The backend probe asks for a client and, only once it has one, for the
    leader. *)
Lemma consulIsHealthy_calls address s b s' t :
  consulIsHealthy address s = (Val b, s', t) ->
  (length t <= 2)%nat /\ Forall (fun ev => isProbe ev = true) t.
Proof.
  unfold consulIsHealthy, NewClient.
  rewrite (bind_Val _ _ _ _ _ _ (call_run _ _ s)).
  destruct (api_NewClient address (world s)) as [[client | e] w1]; cbn [fst snd].
  { unfold Leader. rewrite (bind_Val _ _ _ _ _ _ (call_run _ _ _)).
    cbn [world healthy].
    destruct (Status_Leader client w1) as [[leader | e] w2]; cbn [fst snd].
    - destruct (negb _); unfold ret; intros [= _ _ <-]; simpl;
        (split; [ lia | repeat constructor ]).
    - unfold ret. intros [= _ _ <-]. simpl. split; [ lia | repeat constructor ]. }
  unfold ret. intros [= _ _ <-]. simpl. split; [ lia | repeat constructor ].
Qed.

(** X6. A round's verdict never fails to come: [isLBHealthy] returns a
    boolean, without panic or exit.  It leaves [healthy] alone, calls nothing
    but consul and HTTP endpoints, and makes at most two consul calls, one
    listing fetch per target, one uptime fetch per target when [ttl <> 0],
    and one request per entrypoint. *)
Theorem isLBHealthy_calls_are_bounded config s :
  exists b s' t,
    isLBHealthy config s = (Val b, s', t) /\
    healthy s' = healthy s /\
    Forall (fun ev => isProbe ev = true) t /\
    (length t <= 2 + entrypointsStart (TraefikHosts config) (HealthyTTLSec config)
                 + length (TraefikEntrypoints config))%nat.
Proof.
  destruct (consulIsHealthy_run (ConsulHost config) s)
    as (backend & s1 & t1 & Hback & Hh1 & _).
  destruct (consulIsHealthy_calls _ _ _ _ _ Hback) as (Hl1 & Hf1).
  destruct (traefikIsHealthy_run (TraefikHosts config) (TraefikEntrypoints config)
              (HealthyTTLSec config) s1) as (proxy & s2 & t2 & Hproxy & Hh2 & Hshape).
  destruct (probe_run_calls _ _ _ _ _ Hshape) as (Hl2 & Hf2).
  unfold isLBHealthy. rewrite (andThen_run _ _ _ _ _ _ Hback). rewrite Hproxy.
  destruct backend.
  - exists proxy, s2, (t1 ++ t2). split; [ reflexivity | ].
    split; [ congruence | ]. split; [ apply Forall_app; auto | ].
    rewrite length_app. lia.
  - exists false, s1, t1. split; [ reflexivity | ].
    split; [ exact Hh1 | ]. split; [ exact Hf1 | lia ].
Qed.

(** ** The TTL, seen as a number of seconds *)

(** X7. A negative TTL is not "no rotation": the uptime step runs, and a
    target that answers with an uptime of zero or more whole seconds ends the
    probe at once, unhealthy. *)
Theorem negative_ttl_fails_every_target hosts eps ttl s o s' t i host response z :
  traefikIsHealthy hosts eps ttl s = (o, s', t) ->
  ttl < 0 ->
  hosts !! i = Some host ->
  t !! (length hosts + i)%nat = Some (EvGet (healthURL host) (Ok response)) ->
  StatusCode response = 200 ->
  float64_truncate (UptimeSec (decoded_health response)) = Some z ->
  0 <= z <= maxInt ->
  o = Val false /\ length t = S (length hosts + i).
Proof.
  intros Hrun Hneg Hhost Hev Hst Htrunc Hz.
  assert (Hnz : ttl <> 0) by lia.
  destruct (uptime_call _ _ _ _ _ _ _ _ _ _ Hrun Hnz Hhost Hev Hst) as (Hfail & _).
  apply Hfail. unfold int_of_float64. rewrite Htrunc.
  pose proof int_range_0 as [Hlo _].
  destruct (Z.leb_spec minInt z); [ | lia ].
  destruct (Z.leb_spec z maxInt); [ | lia ].
  simpl. lia.
Qed.

Lemma float64_truncate_floor f q z :
  float64_value f = Some q ->
  float64_truncate f = Some z ->
  (0 <= q)%Q ->
  (inject_Z z <= q)%Q /\ (q < inject_Z (z + 1))%Q.
Proof.
  destruct f as [sg | sg | | sg m e]; unfold float64_value, float64_truncate;
    try discriminate.
  - intros [= <-] [= <-] _. unfold Qle, Qlt, inject_Z. cbn [Qnum Qden]. lia.
  - intros [= <-] [= <-].
    destruct e as [ | k | k].
    + change (0 <=? 0) with true. cbv iota.
      destruct sg; unfold Qle, Qlt, Qopp, inject_Z; cbn [Qnum Qden]; lia.
    + change (0 <=? Z.pos k) with true. cbv iota.
      assert (Hgt : 0 < 2 ^ Z.pos k) by (apply Z.pow_pos_nonneg; lia).
      destruct sg; unfold Qle, Qlt, Qopp, inject_Z; cbn [Qnum Qden]; nia.
    + change (0 <=? Z.neg k) with false. cbv iota.
      change (- Z.neg k) with (Z.pos k).
      assert (Hden : Z.pos (2 ^ k) = 2 ^ Z.pos k) by apply Pos2Z.inj_pow.
      assert (Hgt : 0 < 2 ^ Z.pos k) by (apply Z.pow_pos_nonneg; lia).
      destruct sg; unfold Qle, Qlt, Qopp, inject_Z; cbn [Qnum Qden]; rewrite ?Hden.
      * intros Hq. lia.
      * intros _.
        pose proof (Z.mul_div_le (Z.pos m) (2 ^ Z.pos k) Hgt) as Hle.
        pose proof (Z.mul_succ_div_gt (Z.pos m) (2 ^ Z.pos k) Hgt) as Hlt.
        split; [ lia | ]. replace (Z.pos m `div` 2 ^ Z.pos k + 1)
          with (Z.succ (Z.pos m `div` 2 ^ Z.pos k)) by lia. lia.
Qed.

Lemma float64_value_truncates f q :
  float64_value f = Some q -> exists z, float64_truncate f = Some z.
Proof.
  destruct f as [sg | sg | | sg m e]; simpl; try discriminate; eauto.
Qed.

(** X8. In seconds, rotation starts one second past the TTL.  With
    [0 < ttl], a target whose uptime is a number [q >= 0] of seconds ends the
    probe as unhealthy when [q >= ttl + 1] (and [q] is no more than the
    largest [int]), and passes the uptime step when [q < ttl + 1]. *)
Theorem rotation_starts_a_second_late hosts eps ttl s o s' t i host response q :
  traefikIsHealthy hosts eps ttl s = (o, s', t) ->
  0 < ttl <= maxInt ->
  hosts !! i = Some host ->
  t !! (length hosts + i)%nat = Some (EvGet (healthURL host) (Ok response)) ->
  StatusCode response = 200 ->
  float64_value (UptimeSec (decoded_health response)) = Some q ->
  (0 <= q)%Q ->
  ((inject_Z (ttl + 1) <= q)%Q -> (q <= inject_Z maxInt)%Q ->
   o = Val false /\ length t = S (length hosts + i)) /\
  ((q < inject_Z (ttl + 1))%Q ->
   o = Val false -> (S (length hosts + i) < length t)%nat).
Proof.
  intros Hrun Httl Hhost Hev Hst Hv Hq.
  assert (Hnz : ttl <> 0) by lia.
  destruct (uptime_call _ _ _ _ _ _ _ _ _ _ Hrun Hnz Hhost Hev Hst) as (Hfail & Hpass).
  destruct (float64_value_truncates _ _ Hv) as (z & Hz).
  destruct (float64_truncate_floor _ _ _ Hv Hz Hq) as (Hlo & Hhi).
  pose proof int_range_0 as [Hmin _].
  assert (Hz0 : 0 <= z).
  { assert (Hlt : (inject_Z 0 < inject_Z (z + 1))%Q)
      by exact (Qle_lt_trans _ _ _ Hq Hhi).
    rewrite <- Zlt_Qlt in Hlt. lia. }
  split.
  - intros Hge Hmax. apply Hfail.
    assert (Hlt : (inject_Z (ttl + 1) < inject_Z (z + 1))%Q)
      by exact (Qle_lt_trans _ _ _ Hge Hhi).
    rewrite <- Zlt_Qlt in Hlt.
    assert (Hle : (inject_Z z <= inject_Z maxInt)%Q)
      by exact (Qle_trans _ _ _ Hlo Hmax).
    rewrite <- Zle_Qle in Hle.
    unfold int_of_float64. rewrite Hz.
    destruct (Z.leb_spec minInt z); [ | lia ].
    destruct (Z.leb_spec z maxInt); [ | lia ].
    simpl. lia.
  - intros Hlt. apply Hpass.
    assert (Hlt' : (inject_Z z < inject_Z (ttl + 1))%Q)
      by exact (Qle_lt_trans _ _ _ Hlo Hlt).
    rewrite <- Zlt_Qlt in Hlt'.
    unfold int_of_float64. rewrite Hz.
    destruct (Z.leb_spec minInt z); [ | lia ].
    destruct (Z.leb_spec z maxInt); [ | lia ].
    simpl. lia.
Qed.

(** ** The earlier revision *)

(** X9. In the earlier revision every host needs one backend and one
    frontend at least.  If the listing fetched for the [i]-th host fails (a
    network error, a status other than 200, a payload that does not decode,
    no backend name or no frontend name), the probe returns unhealthy and
    that call is its last one; if not, an unhealthy verdict can only come
    from a later call. *)
Theorem Legacy_listing_needs_one_of_each hosts s o s' t i host r :
  Legacy.traefikIsHealthy hosts s = (o, s', t) ->
  hosts !! i = Some host ->
  t !! i = Some (EvGet (Legacy.providersURL host) r) ->
  (Legacy.listing_fails host r -> o = Val false /\ length t = S i) /\
  (~ Legacy.listing_fails host r -> o = Val false -> (S i < length t)%nat).
Proof.
  intros Hrun Hhost Hev.
  destruct (forRange_probed _ _ _ Legacy_providersBody_probes hosts s)
    as (f & s1 & t1 & Hloop & _ & Hp).
  unfold Legacy.traefikIsHealthy in Hrun.
  rewrite (orElse_run _ _ _ _ _ _ Hloop) in Hrun.
  assert (Ht : t = t1 /\ (f = Next -> o = Val true) /\ (f <> Next -> o = Val false)).
  { destruct f as [ | b].
    - unfold ret in Hrun. injection Hrun as <- _ <-. rewrite app_nil_r.
      split; [ reflexivity | ]. split; [ reflexivity | congruence ].
    - destruct (probed_Return _ _ _ _ _ Hp) as (-> & _).
      injection Hrun as <- _ <-. rewrite app_nil_r.
      split; [ reflexivity | ]. split; [ discriminate | reflexivity ]. }
  destruct Ht as (-> & Htrue & Hfalse).
  destruct (probed_lookup _ _ _ _ _ _ _ _ Hp Hhost Hev)
    as (r' & Heq & [(Hf & Hret & Hlen) | (Hok & Hgo)]); injection Heq as <-.
  - split; [ | contradiction ].
    intros _. split; [ apply Hfalse; rewrite Hret; discriminate | exact Hlen ].
  - split; [ contradiction | ].
    intros _ Ho. destruct Hgo as [Hnext | Hlt]; [ | exact Hlt ].
    rewrite (Htrue Hnext) in Ho. discriminate.
Qed.

(** ** Rounds of polling, and the requests between them *)

Lemma steps_app_inv config s acts1 acts2 ts s' :
  steps config s (acts1 ++ acts2) ts s' ->
  exists mid ts1 ts2,
    steps config s acts1 ts1 mid /\ steps config mid acts2 ts2 s' /\ ts = ts1 ++ ts2.
Proof.
  revert s ts. induction acts1 as [ | a acts1 IH]; intros s ts Hsteps.
  - exists s, [], ts. split; [ constructor | ]. split; [ exact Hsteps | reflexivity ].
  - simpl in Hsteps.
    inversion Hsteps as [ | ? ? t s1 ? ts' ? Hstep Hrest]; subst.
    destruct (IH _ _ Hrest) as (mid & ts1 & ts2 & H1 & H2 & ->).
    exists mid, (t ++ ts1), ts2.
    split; [ econstructor; eassumption | ]. split; [ exact H2 | ].
    rewrite app_assoc. reflexivity.
Qed.

Lemma requests_see_healthy config s rs acts ts s' :
  steps config s (map Request rs ++ acts) ts s' ->
  Forall (fun response => response = answer (healthy s)) rs.
Proof.
  revert s ts. induction rs as [ | r rs IH]; intros s ts Hsteps.
  - constructor.
  - simpl in Hsteps. inversion Hsteps as [ | ? a t s1 acts' ts' ? Hstep Hrest]; subst.
    inversion Hstep as [ | ? ? ? ? Hserve]; subst.
    rewrite serve_run in Hserve. injection Hserve as <- <- <-.
    constructor; [ reflexivity | ]. exact (IH _ _ Hrest).
Qed.

(** X12. Every request is answered with the verdict of the latest completed
    round: in a run of the process, the requests served between one round of
    [pollHealth] and the next all get 200 with an empty body if that round's
    [isLBHealthy] returned true, and all get 500 with an empty body if it
    returned false. *)
Theorem responses_report_the_latest_round config s before rs rest ts s' :
  steps config s (before ++ Poll :: map Request rs ++ rest) ts s' ->
  exists mid ts0 b s1 t1,
    steps config s before ts0 mid /\
    isLBHealthy config mid = (Val b, s1, t1) /\
    Forall (fun response => response = answer b) rs.
Proof.
  intros Hsteps.
  destruct (steps_app_inv _ _ _ _ _ _ Hsteps) as (mid & ts0 & ts1 & Hbefore & Hafter & _).
  inversion Hafter as [ | ? ? t s2 ? ts' ? Hstep Hrest]; subst.
  inversion Hstep as [? ? ? Hpoll | ]; subst.
  destruct (pollOnce_run config mid) as (b & s1 & t1 & Hverdict & Hpoll').
  rewrite Hpoll in Hpoll'. injection Hpoll' as -> _.
  exists mid, ts0, b, s1, t1. split; [ exact Hbefore | ].
  split; [ exact Hverdict | ].
  exact (requests_see_healthy _ _ _ _ _ _ Hrest).
Qed.

(** ** Resolving the configuration *)

Lemma computeTtl_run ttl offset s :
  minInt <= offset <= maxInt ->
  computeTtl ttl offset s
  = let now := fst (time_Now_Unix (world s)) in
    let w := rand_Seed now (snd (time_Now_Unix (world s))) in
    if offset <=? 0
    then (Panic "invalid argument to Intn", mkState _ w (healthy s),
          [EvNow now; EvSeed now])
    else (Val (int_add (fst (rand_draw offset w)) ttl),
          mkState _ (snd (rand_draw offset w)) (healthy s),
          [EvNow now; EvSeed now; EvIntn offset]).
Proof.
  intros Hoff. unfold computeTtl, Now_Unix, Seed.
  rewrite (bind_Val _ _ _ _ _ _ (call_run _ _ s)).
  rewrite (bind_Val _ _ _ _ _ _ (call_run _ _ _)).
  unfold int_sub. rewrite Z.sub_0_r, (wrapInt_in_range offset Hoff).
  unfold Intn. cbn zeta. destruct (offset <=? 0).
  - reflexivity.
  - rewrite (bind_Val _ _ _ _ _ _ (call_run _ _ _)). reflexivity.
Qed.

(** [newConfig] on a file that is there. *)
Lemma newConfig_file path s w1 :
  os_Stat path (world s) = (None, w1) ->
  newConfig path s
  = match json_Decode_Configuration path defaultConfig w1 with
    | ((_, Some _), w2) =>
        (Exit 1, mkState _ w2 (healthy s), [EvStat path; EvReadConfig path])
    | ((base, None), w2) =>
        match (if HealthyTTLSec base >? 0
               then do ttl <- computeTtl (HealthyTTLSec base) (HealthyTTLOffset base);
                    ret (withHealthyTTLSec base ttl)
               else ret base) (mkState _ w2 (healthy s)) with
        | (o, s', t) => (o, s', EvStat path :: EvReadConfig path :: t)
        end
    end.
Proof.
  intros Hstat. unfold newConfig, Stat.
  rewrite (bind_Val _ _ _ _ _ _ (call_run _ _ _)). rewrite Hstat. cbn [fst snd].
  unfold ReadConfig. unfold bind at 1. unfold bind at 1. rewrite call_run.
  cbn [world healthy].
  destruct (json_Decode_Configuration path defaultConfig w1)
    as [[base [e | ]] w2]; cbn [fst snd]; [ reflexivity | ].
  unfold ret at 1. cbn iota beta.
  destruct (_ (mkState _ w2 (healthy s))) as [[o s'] t]. reflexivity.
Qed.

(** X13. Without a positive TTL, [newConfig] draws nothing.  If [os.Stat]
    fails, it returns the built-in defaults and does not open the file.  If
    the file is there and does not decode, the process exits with status 1.
    If it decodes with a TTL of zero or less, the configuration is the file's
    as it is, a negative TTL included. *)
Theorem newConfig_without_rotation path s :
  (forall e w1,
      os_Stat path (world s) = (Some e, w1) ->
      newConfig path s = (Val defaultConfig, mkState _ w1 (healthy s), [EvStat path])) /\
  (forall w1 partial e w2,
      os_Stat path (world s) = (None, w1) ->
      json_Decode_Configuration path defaultConfig w1 = ((partial, Some e), w2) ->
      newConfig path s
      = (Exit 1, mkState _ w2 (healthy s), [EvStat path; EvReadConfig path])) /\
  (forall w1 base w2,
      os_Stat path (world s) = (None, w1) ->
      json_Decode_Configuration path defaultConfig w1 = ((base, None), w2) ->
      HealthyTTLSec base <= 0 ->
      newConfig path s
      = (Val base, mkState _ w2 (healthy s), [EvStat path; EvReadConfig path])).
Proof.
  split; [ | split ].
  - intros e w1 Hstat. unfold newConfig, Stat.
    rewrite (bind_Val _ _ _ _ _ _ (call_run _ _ _)). rewrite Hstat. cbn [fst snd].
    rewrite (bind_Val _ _ _ _ _ _ eq_refl). reflexivity.
  - intros w1 partial e w2 Hstat Hdec.
    rewrite (newConfig_file _ _ _ Hstat), Hdec. reflexivity.
  - intros w1 base w2 Hstat Hdec Httl.
    rewrite (newConfig_file _ _ _ Hstat), Hdec.
    destruct (Z.gtb_spec (HealthyTTLSec base) 0) as [Hpos | _]; [ lia | reflexivity ].
Qed.

(** X14. With a positive TTL and a window of at least 1 that fits an [int]
    above it, [newConfig] returns the file's configuration with nothing but
    the TTL replaced, by a value of the window; it reads the clock, seeds
    the generator and draws once, in this order, after reading the file. *)
Theorem newConfig_jitters_only_the_ttl path s w1 base w2 :
  os_Stat path (world s) = (None, w1) ->
  json_Decode_Configuration path defaultConfig w1 = ((base, None), w2) ->
  0 < HealthyTTLSec base ->
  0 < HealthyTTLOffset base <= maxInt ->
  HealthyTTLSec base + HealthyTTLOffset base - 1 <= maxInt ->
  exists ttl s' now,
    newConfig path s
    = (Val (withHealthyTTLSec base ttl), s',
       [EvStat path; EvReadConfig path; EvNow now; EvSeed now;
        EvIntn (HealthyTTLOffset base)]) /\
    HealthyTTLSec base <= ttl < HealthyTTLSec base + HealthyTTLOffset base /\
    healthy s' = healthy s /\
    ListenAddr (withHealthyTTLSec base ttl) = ListenAddr base /\
    PollInterval (withHealthyTTLSec base ttl) = PollInterval base /\
    TraefikHosts (withHealthyTTLSec base ttl) = TraefikHosts base /\
    ConsulHost (withHealthyTTLSec base ttl) = ConsulHost base /\
    TraefikEntrypoints (withHealthyTTLSec base ttl) = TraefikEntrypoints base /\
    HealthyTTLOffset (withHealthyTTLSec base ttl) = HealthyTTLOffset base.
Proof.
  intros Hstat Hdec Hpos Hoff Hfit. pose proof int_range_0 as [Hlo Hhi].
  rewrite (newConfig_file _ _ _ Hstat), Hdec.
  destruct (Z.gtb_spec (HealthyTTLSec base) 0) as [_ | Hle]; [ | lia ].
  unfold bind. rewrite computeTtl_run by lia. cbn zeta.
  destruct (Z.leb_spec (HealthyTTLOffset base) 0) as [Hle | _]; [ lia | ].
  cbn [world healthy].
  set (now := fst (time_Now_Unix w2)).
  set (w := rand_Seed now (snd (time_Now_Unix w2))).
  pose proof (rand_draw_range (HealthyTTLOffset base) w (proj1 Hoff)) as Hr.
  exists (int_add (fst (rand_draw (HealthyTTLOffset base) w)) (HealthyTTLSec base)),
    (mkState _ (snd (rand_draw (HealthyTTLOffset base) w)) (healthy s)), now.
  split; [ reflexivity | ].
  split; [ unfold int_add; rewrite wrapInt_in_range by lia; lia | ].
  repeat split.
Qed.

(** X15. With a positive TTL and a window of zero or less, [newConfig] never
    returns: [rand.Intn] panics, after the file was read, the clock read and
    the generator seeded. *)
Theorem newConfig_nonpositive_window_panics path s w1 base w2 :
  os_Stat path (world s) = (None, w1) ->
  json_Decode_Configuration path defaultConfig w1 = ((base, None), w2) ->
  0 < HealthyTTLSec base ->
  minInt <= HealthyTTLOffset base <= 0 ->
  exists s' now,
    newConfig path s
    = (Panic "invalid argument to Intn", s',
       [EvStat path; EvReadConfig path; EvNow now; EvSeed now]).
Proof.
  intros Hstat Hdec Hpos Hoff. pose proof int_range_0 as [Hlo Hhi].
  rewrite (newConfig_file _ _ _ Hstat), Hdec.
  destruct (Z.gtb_spec (HealthyTTLSec base) 0) as [_ | Hle]; [ | lia ].
  unfold bind. rewrite computeTtl_run by lia. cbn zeta.
  destruct (Z.leb_spec (HealthyTTLOffset base) 0) as [_ | Hgt]; [ | lia ].
  eexists _, _. reflexivity.
Qed.

(** ** A minimum of zero *)

(** X16. A minimum of zero services or less, the default, switches the
    counting off: a listing that came with status 200 and decoded passes for
    such a target whatever it lists, even nothing, so that an unhealthy
    verdict can only come from a later call. *)
Theorem minimum_of_zero_accepts_any_listing
    hosts eps ttl s o s' t i host response providers :
  traefikIsHealthy hosts eps ttl s = (o, s', t) ->
  hosts !! i = Some host ->
  t !! i = Some (EvGet (providersURL host) (Ok response)) ->
  StatusCode response = 200 ->
  json_Decode_TraefikProviders (Body response) zeroTraefikProviders = (providers, None) ->
  MinServices host <= 0 ->
  o = Val false -> (S i < length t)%nat.
Proof.
  intros Hrun Hhost Hev Hst Hdec Hmin Ho.
  destruct (traefikIsHealthy_run hosts eps ttl s) as (b & s1 & tr & Hrun' & _ & Hshape).
  rewrite Hrun in Hrun'. injection Hrun' as -> -> ->.
  destruct (probe_run_listing _ _ _ _ _ _ _ _ Hshape Hhost Hev)
    as (r & Heq & [(Hfails & _) | (_ & Hlater)]).
  - injection Heq as <-. exfalso.
    destruct Hfails as [Hne | [(p & e & He) | (p & Hp & Hlt)]].
    + contradiction.
    + congruence.
    + lia.
  - apply Hlater. congruence.
Qed.

End More.

(** * The theorems at work in the demo world *)

Section Runs.

#[local] Existing Instance Demo.world.

(** Three targets, the second one frontend short of its minimum of two: the
    probe stops there, unhealthy, and never asks the third. *)
Lemma failing_listing_witness :
  exists o s' t,
    traefikIsHealthy [Demo.good; Demo.thin; Demo.bare] [] 0 Demo.start = (o, s', t) /\
    o = Val false /\ length t = 2%nat.
Proof.
  assert (Hrun : traefikIsHealthy [Demo.good; Demo.thin; Demo.bare] [] 0 Demo.start
                 = (Val false, Demo.start,
                    [Demo.listing2_of Demo.good;
                     EvGet (providersURL Demo.thin) (Ok (mkResponse 200 Demo.listing21))]))
    by (vm_compute; reflexivity).
  eexists _, _, _. split; [ exact Hrun | ].
  destruct (failing_listing_is_unhealthy _ _ _ _ _ _ _ 1%nat Demo.thin _
              Hrun eq_refl eq_refl) as (Ho & Hlen & _).
  - right. right. eexists. split; [ vm_compute; reflexivity | ].
    right. vm_compute. reflexivity.
  - split; assumption.
Defined.

(** A target whose uptime is 100.5 seconds with a TTL of 100: the uptime is
    strictly more than the TTL, and the probe returns healthy. *)
Lemma uptime_fraction_counterexample :
  exists q,
    float64_value (UptimeSec (decoded_health (mkResponse 200 (Demo.uptime "100.5"))))
    = Some q /\
    (inject_Z 100 < q)%Q /\
    traefikIsHealthy [Demo.late] [] 100 Demo.start
    = (Val true, Demo.start, [Demo.listing2_of Demo.late; Demo.uptime_of Demo.late "100.5"]).
Proof.
  eexists. split; [ vm_compute; reflexivity | ].
  split; [ vm_compute; reflexivity | vm_compute; reflexivity ].
Qed.

(** Two targets with a TTL of 100: the first is up for 100 seconds exactly and
    passes, the second for 101 and ends the probe. *)
Lemma uptime_whole_seconds_witness :
  exists o s' t,
    traefikIsHealthy [Demo.exact; Demo.old] ["http://good:80/"] 100 Demo.start
    = (o, s', t) /\
    o = Val false /\ length t = 4%nat.
Proof.
  assert (Hrun : traefikIsHealthy [Demo.exact; Demo.old] ["http://good:80/"] 100 Demo.start
                 = (Val false, Demo.start,
                    [Demo.listing2_of Demo.exact; Demo.listing2_of Demo.old;
                     Demo.uptime_of Demo.exact "100"; Demo.uptime_of Demo.old "101"]))
    by (vm_compute; reflexivity).
  eexists _, _, _. split; [ exact Hrun | ].
  destruct (uptime_whole_seconds_past_ttl _ _ _ _ _ _ _ Hrun) as (Hstep & _).
  assert (Hnz : 100 <> 0) by lia.
  destruct (Hstep Hnz 1%nat Demo.old _ eq_refl eq_refl eq_refl) as (Hfail & _).
  apply Hfail. vm_compute. reflexivity.
Defined.

(** One target and three entrypoints: the 404 of the first is let through,
    the 503 of the second ends the probe, the third is not asked. *)
Lemma entrypoint_5xx_witness :
  exists o s' t,
    traefikIsHealthy [Demo.good]
      ["http://good:80/missing"; "http://good:80/down"; "http://good:80/"] 0 Demo.start
    = (o, s', t) /\
    o = Val false /\ length t = 3%nat /\ (o = Val false -> (2 < length t)%nat).
Proof.
  assert (Hrun : traefikIsHealthy [Demo.good]
                   ["http://good:80/missing"; "http://good:80/down"; "http://good:80/"]
                   0 Demo.start
                 = (Val false, Demo.start,
                    [Demo.listing2_of Demo.good;
                     EvGet "http://good:80/missing"
                       (Ok (mkResponse 404 "404 page not found"));
                     EvGet "http://good:80/down"
                       (Ok (mkResponse 503 "Service Unavailable"))]))
    by (vm_compute; reflexivity).
  eexists _, _, _. split; [ exact Hrun | ].
  destruct (entrypoint_5xx_is_unhealthy _ _ _ _ _ _ _ 1%nat _ _ Hrun eq_refl eq_refl)
    as (_ & H503 & _).
  destruct (entrypoint_5xx_is_unhealthy _ _ _ _ _ _ _ 0%nat _ _ Hrun eq_refl eq_refl)
    as (_ & _ & H404).
  destruct (H503 _ eq_refl ltac:(simpl; lia)) as (Ho & Hlen).
  split; [ exact Ho | ]. split; [ exact Hlen | ].
  exact (H404 _ eq_refl ltac:(simpl; lia)).
Defined.

(** A target whose uptime answer is an HTML page: the decoder fails, the
    struct stays at its zero value, and the loop goes on. *)
Lemma uptime_decode_error_witness :
  healthBody 100 Demo.mute Demo.start
  = (Val Next, Demo.start,
     [EvGet (healthURL Demo.mute) (Ok (mkResponse 200 Demo.garbled))]).
Proof.
  assert (Httl : 0 <= 100) by lia.
  exact (proj1 (proj2 (proj2 (uptime_decode_error_is_ignored 100 Demo.mute
                                (mkResponse 200 Demo.garbled) zeroTraefikHealth
                                "invalid character '<' looking for beginning of value"
                                Httl eq_refl eq_refl)) eq_refl)
           Demo.start 0 eq_refl).
Defined.

(** The backend probe of a consul without a leader returns false. *)
Lemma consulIsHealthy_witness :
  fst (fst (consulIsHealthy "alone:8500" Demo.start)) = Val false.
Proof.
  destruct (consulIsHealthy_iff_leader "alone:8500" Demo.start)
    as (b & s' & t & Hrun & _ & _ & _ & Hempty).
  rewrite Hrun. cbn [fst]. f_equal.
  exact (Hempty "alone:8500" 0 0 eq_refl eq_refl).
Defined.

(** With a consul without a leader, the verdict is false and no HTTP request
    is made. *)
Lemma isLBHealthy_witness :
  fst (fst (isLBHealthy Demo.alone Demo.start)) = Val false /\
  Forall (fun ev => isGet ev = false) (snd (isLBHealthy Demo.alone Demo.start)).
Proof.
  destruct (isLBHealthy_is_short_circuit_and Demo.alone
              (Legacy.mkConfiguration "0.0.0.0:10700" 10 ["good:8080"] "alone:8500")
              Demo.start)
    as ((backend & s1 & t1 & proxy & s2 & t2 & Hback & _ & _ & Hand & Hnoget) & _).
  assert (Hb : backend = false).
  { vm_compute in Hback. congruence. }
  split; [ | exact (Hnoget Hb) ].
  rewrite Hand, Hb. reflexivity.
Defined.

(** No target, no entrypoint, no TTL, and a consul with a leader. *)
Lemma empty_probe_witness :
  isLBHealthy Demo.bare_config Demo.start
  = (Val true, Demo.start,
     [EvNewClient "consul:8500"; EvLeader (Ok "10.0.0.1:8300")]).
Proof.
  refine (proj2 (empty_probe_is_healthy Demo.bare_config Demo.start _ _
                   eq_refl eq_refl eq_refl _)).
  vm_compute. reflexivity.
Defined.

(** A run of the process on the configuration file [jitter.json]. *)
Lemma jitter_run :
  main_run "jitter.json" 0
    (map Request [mkResponse 500 ""] ++ [Poll; Request (mkResponse 200 "")])
    Demo.jitter_events (@mkState Demo.world 1700000000 true).
Proof.
  exists Demo.jitter_config, (@mkState Demo.world 1700000000 false),
    [EvStat "jitter.json"; EvReadConfig "jitter.json";
     EvNow 1700000000; EvSeed 1700000000; EvIntn 50],
    ([] ++ [EvNewClient "consul:8500"; EvLeader (Ok "10.0.0.1:8300");
            Demo.listing2_of Demo.good; Demo.uptime_of Demo.good "100";
            EvSleep 10000000000] ++ [] ++ []).
  split; [ vm_compute; reflexivity | ]. split; [ | reflexivity ].
  eapply steps_cons; [ apply step_request; vm_compute; reflexivity | ].
  eapply steps_cons; [ apply step_poll; vm_compute; reflexivity | ].
  eapply steps_cons; [ apply step_request; vm_compute; reflexivity | ].
  apply steps_nil.
Defined.

(** The request served before the first round gets a 500. *)
Lemma responder_witness :
  Forall (fun response => response = mkResponse 500 "") [mkResponse 500 ""].
Proof.
  exact (proj1 (proj2 (proj2 responder_reads_healthy)) _ _ _ _ _ _ jitter_run).
Defined.

(** [newConfig] on a file that asks for a TTL of 100 with a window of 0: the
    process panics before it serves anything. *)
Example newConfig_zero_window_panics :
  newConfig "nojitter.json" Demo.start
  = (Panic "invalid argument to Intn", @mkState Demo.world 1700000000 false,
     [EvStat "nojitter.json"; EvReadConfig "nojitter.json";
      EvNow 1700000000; EvSeed 1700000000]).
Proof. vm_compute. reflexivity. Qed.

Lemma computeTtl_in_window_witness :
  exists r s' t,
    computeTtl 100 50 Demo.start = (Val r, s', t) /\
    100 <= r < 100 + 50 /\
    draws t = [50].
Proof.
  apply computeTtl_in_window.
  - lia.
  - unfold maxInt. simpl. lia.
  - unfold maxInt. simpl. lia.
Defined.

Lemma Intn_at_most_once_witness :
  exists base,
    loaded "jitter.json" 0 base /\
    ((0 < HealthyTTLSec base /\
      draws Demo.jitter_events = [int_sub (HealthyTTLOffset base) 0]) \/
     (HealthyTTLSec base <= 0 /\ draws Demo.jitter_events = [])).
Proof.
  exact (Intn_at_most_once _ _ _ _ _ jitter_run).
Defined.

End Runs.

(** * More runs in the demo world *)

Section MoreRuns.

#[local] Existing Instance Demo.world.

(** Two targets and an entrypoint, all well: five calls, all passing. *)
Lemma healthy_means_every_check_passed_witness :
  length (snd (traefikIsHealthy [Demo.good; Demo.exact] ["http://good:80/"] 100
                 Demo.start)) = 5%nat.
Proof.
  assert (Hrun : traefikIsHealthy [Demo.good; Demo.exact] ["http://good:80/"] 100 Demo.start
                 = (Val true, Demo.start,
                    [Demo.listing2_of Demo.good; Demo.listing2_of Demo.exact;
                     Demo.uptime_of Demo.good "100"; Demo.uptime_of Demo.exact "100";
                     EvGet "http://good:80/" (Ok (mkResponse 200 "ok"))]))
    by (vm_compute; reflexivity).
  destruct (healthy_means_every_check_passed _ _ _ _ _ _ Hrun) as (Hlen & _).
  rewrite Hrun. exact Hlen.
Defined.

(** A target without any service where one is asked for: one call, failing. *)
Lemma unhealthy_means_last_call_failed_witness :
  exists k ev,
    length [EvGet (providersURL Demo.bare) (Ok (mkResponse 200 Demo.listing0))] = S k /\
    [EvGet (providersURL Demo.bare) (Ok (mkResponse 200 Demo.listing0))] !! k = Some ev /\
    ((exists host r,
         [Demo.bare; Demo.good] !! k = Some host /\
         ev = EvGet (providersURL host) r /\ listing_fails host r) \/
     (exists i host r,
         0 <> 0 /\ k = (length [Demo.bare; Demo.good] + i)%nat /\
         [Demo.bare; Demo.good] !! i = Some host /\
         ev = EvGet (healthURL host) r /\ uptime_fails 0 host r) \/
     (exists j url r,
         k = (entrypointsStart [Demo.bare; Demo.good] 0 + j)%nat /\
         (@nil string) !! j = Some url /\
         ev = EvGet url r /\ entrypoint_fails url r)).
Proof.
  refine (unhealthy_means_last_call_failed [Demo.bare; Demo.good] [] 0
            Demo.start Demo.start _ _).
  vm_compute. reflexivity.
Defined.

(** A TTL of -5: the first uptime answer, 100 seconds, ends the probe. *)
Lemma negative_ttl_witness :
  @Val bool false = Val false /\
  length [Demo.listing2_of Demo.exact; Demo.uptime_of Demo.exact "100"] = 2%nat.
Proof.
  assert (Hrun : traefikIsHealthy [Demo.exact] [] (-5) Demo.start
                 = (Val false, Demo.start,
                    [Demo.listing2_of Demo.exact; Demo.uptime_of Demo.exact "100"]))
    by (vm_compute; reflexivity).
  assert (Hneg : -5 < 0) by lia.
  assert (Hz : 0 <= 100 <= maxInt) by (unfold maxInt; simpl; lia).
  refine (negative_ttl_fails_every_target _ _ _ _ _ _ _ 0%nat Demo.exact _ 100
            Hrun Hneg eq_refl eq_refl eq_refl _ Hz).
  vm_compute. reflexivity.
Defined.

(** A TTL of 100: 100.5 seconds pass, 101 seconds do not. *)
Lemma rotation_witness :
  @Val bool false = Val false /\
  length [Demo.listing2_of Demo.late; Demo.listing2_of Demo.old;
          Demo.uptime_of Demo.late "100.5"; Demo.uptime_of Demo.old "101"] = 4%nat.
Proof.
  assert (Hrun : traefikIsHealthy [Demo.late; Demo.old] [] 100 Demo.start
                 = (Val false, Demo.start,
                    [Demo.listing2_of Demo.late; Demo.listing2_of Demo.old;
                     Demo.uptime_of Demo.late "100.5"; Demo.uptime_of Demo.old "101"]))
    by (vm_compute; reflexivity).
  assert (Httl : 0 < 100 <= maxInt) by (unfold maxInt; simpl; lia).
  assert (Hv : float64_value
                 (UptimeSec (decoded_health (mkResponse 200 (Demo.uptime "101"))))
               = Some (7107243161944064 # 70368744177664))
    by (vm_compute; reflexivity).
  assert (Hq : (0 <= 7107243161944064 # 70368744177664)%Q)
    by (unfold Qle; simpl; lia).
  destruct (rotation_starts_a_second_late _ _ _ _ _ _ _ 1%nat Demo.old _ _
              Hrun Httl eq_refl eq_refl eq_refl Hv Hq) as (Hfail & _).
  apply Hfail.
  - unfold Qle. simpl. lia.
  - unfold Qle, maxInt. simpl. lia.
Defined.

(** A request, a round, two requests. *)
Lemma jitter_steps :
  steps Demo.jitter_config Demo.start
    ([Request (answer false)] ++ Poll :: map Request [answer true; answer true] ++ [])
    ([] ++ [EvNewClient "consul:8500"; EvLeader (Ok "10.0.0.1:8300");
            Demo.listing2_of Demo.good; Demo.uptime_of Demo.good "100";
            EvSleep 10000000000] ++ [] ++ [] ++ [])
    (@mkState Demo.world 0 true).
Proof.
  eapply steps_cons; [ apply step_request; vm_compute; reflexivity | ].
  eapply steps_cons; [ apply step_poll; vm_compute; reflexivity | ].
  eapply steps_cons; [ apply step_request; vm_compute; reflexivity | ].
  eapply steps_cons; [ apply step_request; vm_compute; reflexivity | ].
  apply steps_nil.
Defined.

Lemma responses_report_the_latest_round_witness :
  exists mid ts0 b s1 t1,
    steps Demo.jitter_config Demo.start [Request (answer false)] ts0 mid /\
    isLBHealthy Demo.jitter_config mid = (Val b, s1, t1) /\
    Forall (fun response => response = answer b) [answer true; answer true].
Proof.
  exact (responses_report_the_latest_round _ _ _ _ _ _ _ jitter_steps).
Defined.

(** [jitter.json]: a TTL of 100 and a window of 50. *)
Lemma newConfig_jitters_witness :
  exists ttl s' now,
    newConfig "jitter.json" Demo.start
    = (Val (withHealthyTTLSec Demo.jitter_config ttl), s',
       [EvStat "jitter.json"; EvReadConfig "jitter.json"; EvNow now; EvSeed now;
        EvIntn (HealthyTTLOffset Demo.jitter_config)]) /\
    HealthyTTLSec Demo.jitter_config <= ttl
    < HealthyTTLSec Demo.jitter_config + HealthyTTLOffset Demo.jitter_config /\
    healthy s' = healthy Demo.start /\
    ListenAddr (withHealthyTTLSec Demo.jitter_config ttl) = ListenAddr Demo.jitter_config /\
    PollInterval (withHealthyTTLSec Demo.jitter_config ttl)
    = PollInterval Demo.jitter_config /\
    TraefikHosts (withHealthyTTLSec Demo.jitter_config ttl)
    = TraefikHosts Demo.jitter_config /\
    ConsulHost (withHealthyTTLSec Demo.jitter_config ttl) = ConsulHost Demo.jitter_config /\
    TraefikEntrypoints (withHealthyTTLSec Demo.jitter_config ttl)
    = TraefikEntrypoints Demo.jitter_config /\
    HealthyTTLOffset (withHealthyTTLSec Demo.jitter_config ttl)
    = HealthyTTLOffset Demo.jitter_config.
Proof.
  assert (Hstat : os_Stat "jitter.json" (world Demo.start) = (None, 0))
    by (vm_compute; reflexivity).
  assert (Hdec : json_Decode_Configuration "jitter.json" defaultConfig 0
                 = ((Demo.jitter_config, None), 0))
    by (vm_compute; reflexivity).
  apply (newConfig_jitters_only_the_ttl "jitter.json" Demo.start 0 Demo.jitter_config 0
           Hstat Hdec).
  - simpl. lia.
  - unfold maxInt. simpl. lia.
  - unfold maxInt. simpl. lia.
Defined.

(** [nojitter.json]: a TTL of 100 and a window of 0. *)
Lemma newConfig_panics_witness :
  exists s' now,
    newConfig "nojitter.json" Demo.start
    = (Panic "invalid argument to Intn", s',
       [EvStat "nojitter.json"; EvReadConfig "nojitter.json"; EvNow now; EvSeed now]).
Proof.
  assert (Hstat : os_Stat "nojitter.json" (world Demo.start) = (None, 0))
    by (vm_compute; reflexivity).
  assert (Hdec : json_Decode_Configuration "nojitter.json" defaultConfig 0
                 = ((mkConfiguration "0.0.0.0:10700" 10 [Demo.good] "consul:8500" []
                       100 0, None), 0))
    by (vm_compute; reflexivity).
  apply (newConfig_nonpositive_window_panics "nojitter.json" Demo.start 0 _ 0 Hstat Hdec).
  - simpl. lia.
  - unfold minInt. simpl. lia.
Defined.

(** A target that lists nothing and asks for nothing passes; the next one,
    a frontend short, is what ends the probe. *)
Lemma minimum_of_zero_witness :
  (1 < length [EvGet "http://bare:8080/api/providers" (Ok (mkResponse 200 Demo.listing0));
               EvGet (providersURL Demo.thin) (Ok (mkResponse 200 Demo.listing21))])%nat.
Proof.
  assert (Hrun : traefikIsHealthy [mkTraefikHost "bare:8080" 0; Demo.thin] [] 0 Demo.start
                 = (Val false, Demo.start,
                    [EvGet "http://bare:8080/api/providers"
                       (Ok (mkResponse 200 Demo.listing0));
                     EvGet (providersURL Demo.thin) (Ok (mkResponse 200 Demo.listing21))]))
    by (vm_compute; reflexivity).
  assert (Hmin : MinServices (mkTraefikHost "bare:8080" 0) <= 0) by (simpl; lia).
  refine (minimum_of_zero_accepts_any_listing _ _ _ _ _ _ _ 0%nat
            (mkTraefikHost "bare:8080" 0) _ zeroTraefikProviders
            Hrun eq_refl eq_refl eq_refl _ Hmin eq_refl).
  vm_compute. reflexivity.
Defined.

(** The earlier revision on three hosts: the second lists nothing and ends
    the probe. *)
Lemma Legacy_listing_witness :
  @Val bool false = Val false /\
  length [EvGet (Legacy.providersURL "good:8080") (Ok (mkResponse 200 Demo.listing2));
          EvGet (Legacy.providersURL "bare:8080") (Ok (mkResponse 200 Demo.listing0))]
  = 2%nat.
Proof.
  assert (Hrun : Legacy.traefikIsHealthy ["good:8080"; "bare:8080"; "thin:8080"] Demo.start
                 = (Val false, Demo.start,
                    [EvGet (Legacy.providersURL "good:8080")
                       (Ok (mkResponse 200 Demo.listing2));
                     EvGet (Legacy.providersURL "bare:8080")
                       (Ok (mkResponse 200 Demo.listing0))]))
    by (vm_compute; reflexivity).
  refine (proj1 (Legacy_listing_needs_one_of_each _ _ _ _ _ 1%nat "bare:8080" _
                   Hrun eq_refl eq_refl) _).
  right. right. exists zeroTraefikProviders.
  split; [ vm_compute; reflexivity | ]. left. reflexivity.
Defined.

End MoreRuns.

Section FileRuns.

#[local] Existing Instance Files.world.

(** No file; a file that does not decode; a file with a TTL of -5. *)
Lemma newConfig_without_rotation_witness :
  newConfig "absent.json" Files.start
  = (Val defaultConfig, Files.start, [EvStat "absent.json"]) /\
  newConfig "broken.json" Files.start
  = (Exit 1, Files.start, [EvStat "broken.json"; EvReadConfig "broken.json"]) /\
  newConfig "negative.json" Files.start
  = (Val (mkConfiguration "0.0.0.0:10700" 10 [Demo.exact] "consul:8500" [] (-5) 10),
     Files.start, [EvStat "negative.json"; EvReadConfig "negative.json"]).
Proof.
  split; [ | split ].
  - exact (proj1 (newConfig_without_rotation "absent.json" Files.start)
             "no such file or directory" 0 eq_refl).
  - exact (proj1 (proj2 (newConfig_without_rotation "broken.json" Files.start))
             0 defaultConfig "unexpected end of JSON input" 0 eq_refl eq_refl).
  - refine (proj2 (proj2 (newConfig_without_rotation "negative.json" Files.start))
              0 _ 0 eq_refl eq_refl _).
    simpl. lia.
Defined.

End FileRuns.

Section PartialRuns.

#[local] Existing Instance Partial.world.

(** An uptime answer with status 200 that does not decode, and a TTL of 100:
    the field that was stored, 500 seconds, is compared, and the probe ends
    unhealthy on that answer. *)
Lemma uptime_partial_decode_counterexample :
  0 <= 100 /\
  json_Decode_TraefikHealth Partial.mistyped zeroTraefikHealth
  = (mkTraefikHealth "" Partial.f500 0, Some Partial.type_error) /\
  valid_binary 53 1024 Partial.f500 = true /\
  int_of_float64 Partial.f500 = 500 /\
  traefikIsHealthy [Partial.odd] [] 100 Partial.start
  = (Val false, Partial.start,
     [EvGet (providersURL Partial.odd) (Ok (mkResponse 200 Demo.listing2));
      EvGet (healthURL Partial.odd) (Ok (mkResponse 200 Partial.mistyped))]).
Proof.
  split; [ lia | ].
  repeat split; vm_compute; reflexivity.
Qed.

End PartialRuns.
